(** * GeoVision (main.js): location analysis and simulated assistant

    A shallow embedding of the analysis and chat core of [src/main.js]:
    [identifyHazards], [calculateResilience], [estimatePopulation],
    [analyzeLocation], [generateAIResponse], [addChatMessage] and
    [sendChatMessage], and of the handlers around it ([handleMapClick],
    [loadLocationInfo], [performSearch], the three map toggles and the
    full-screen chat), followed by the properties the specification states
    about them and further properties read off the code.

    Modelling choices.
    - JavaScript numbers that carry coordinates and random draws are IEEE 754
      binary64 values: Rocq's primitive floats, with the same comparison and
      arithmetic.  Scores and counts are small integers, kept in [Z].
    - JavaScript strings are sequences of UTF-16 code units: [list N].
    - [Math.random], the global variables [currentLocation] and
      [chatMessages], and the part of the DOM the chat functions touch are
      fields of one [World] record threaded through a state monad.  The
      elements looked up by id are taken to exist.
    - An [async] function whose awaited promises are already settled runs
      its steps in order before the next event is handled; it is modelled
      as a sequential computation. *)

From Stdlib Require Import Floats ZArith NArith Bool String Ascii List Lia.
From Stdlib Require Import Permutation.
Import ListNotations.

#[local] Set Warnings "-inexact-float".
#[local] Open Scope Z_scope.

(* ===================================================================== *)
(** ** JavaScript strings *)
(* ===================================================================== *)

Module Js.

(** A string value: its UTF-16 code units. *)
Definition jsstring := list N.

(** An ASCII source literal as a string value. *)
Definition lit (s : string) : jsstring :=
  map N_of_ascii (list_ascii_of_string s).

Definition unit_eqb (a b : N) : bool := N.eqb a b.

(** [p] is a prefix of [s]. *)
Fixpoint startsWith (s p : jsstring) : bool :=
  match p, s with
  | [], _ => true
  | _ :: _, [] => false
  | a :: p', b :: s' => unit_eqb a b && startsWith s' p'
  end.

(** [String.prototype.includes]: [p] occurs in [s] as a contiguous run of
    code units. *)
Fixpoint includes (s p : jsstring) : bool :=
  startsWith s p ||
  match s with
  | [] => false
  | _ :: s' => includes s' p
  end.

(** Code units that [String.prototype.trim] strips: the WhiteSpace and
    LineTerminator productions of ECMAScript (all in the BMP). *)
Definition isWhiteSpace (c : N) : bool :=
  ((9 <=? c) && (c <=? 13) ||
   (c =? 32) || (c =? 160) || (c =? 5760) ||
   (8192 <=? c) && (c <=? 8202) ||
   (c =? 8232) || (c =? 8233) || (c =? 8239) || (c =? 8287) ||
   (c =? 12288) || (c =? 65279))%N.

Fixpoint trimStart (s : jsstring) : jsstring :=
  match s with
  | [] => []
  | c :: s' => if isWhiteSpace c then trimStart s' else s
  end.

Definition trimEnd (s : jsstring) : jsstring :=
  rev (trimStart (rev s)).

(** [String.prototype.trim]. *)
Definition trim (s : jsstring) : jsstring := trimEnd (trimStart s).

(** [!s] for a string: only the empty string is falsy. *)
Definition falsy (s : jsstring) : bool :=
  match s with [] => true | _ :: _ => false end.

(** [!v] for a value that is a string, [null] or [undefined]. *)
Definition falsyOpt (v : option jsstring) : bool :=
  match v with None => true | Some s => falsy s end.

(** [a || b] where [a] is a string or [null] and [b] a string. *)
Definition orElse (a : option jsstring) (b : jsstring) : jsstring :=
  match a with
  | Some (c :: s) => c :: s
  | _ => b
  end.

(** [Array.prototype.join]. *)
Fixpoint join (sep : jsstring) (xs : list jsstring) : jsstring :=
  match xs with
  | [] => []
  | [x] => x
  | x :: rest => x ++ sep ++ join sep rest
  end.

(** Interpolation of a value that is a string or [undefined] in a
    template literal. *)
Definition show (v : option jsstring) : jsstring :=
  match v with Some s => s | None => lit "undefined" end.

(** ASCII lower-casing of one code unit. *)
Definition asciiLower (c : N) : N :=
  if ((65 <=? c) && (c <=? 90))%N then (c + 32)%N else c.

Definition isAscii (c : N) : bool := (c <? 128)%N.

(** The part of the JavaScript runtime that is not written out here:
    [String.prototype.toLowerCase].  Over the whole of Unicode it is table
    driven; what is used of it is that on ASCII-only strings it lowers
    [A-Z] and leaves every other code unit alone. *)
Class Runtime := {
  toLowerCase : jsstring -> jsstring;
  toLowerCase_ascii :
    forall s, forallb isAscii s = true -> toLowerCase s = map asciiLower s
}.

(** A runtime whose [toLowerCase] only knows ASCII. *)
#[refine] Instance asciiRuntime : Runtime :=
  {| toLowerCase := map asciiLower |}.
Proof. intros s _. reflexivity. Defined.

End Js.
Import Js.

(* ===================================================================== *)
(** ** Numbers *)
(* ===================================================================== *)

(** Comparison of two numbers, [a < b] and [a > b]; false when either is
    NaN. *)
Definition lt (a b : float) : bool := PrimFloat.ltb a b.
Definition gt (a b : float) : bool := PrimFloat.ltb b a.
Definition le (a b : float) : bool := PrimFloat.leb a b.

(* ===================================================================== *)
(** ** Program state *)
(* ===================================================================== *)

(** Hazard names and levels: the string constants ['Earthquake'], ...,
    ['low'], ['moderate'], ['high'] of [identifyHazards]. *)
Inductive HazardName := Earthquake | Typhoon | Flooding | Tsunami | Landslide.
Inductive Level := low | moderate | high.

Record Hazard := mkHazard { name : HazardName; level : Level }.

Definition nameStr (n : HazardName) : jsstring :=
  match n with
  | Earthquake => lit "Earthquake"
  | Typhoon => lit "Typhoon"
  | Flooding => lit "Flooding"
  | Tsunami => lit "Tsunami"
  | Landslide => lit "Landslide"
  end.

Definition levelStr (l : Level) : jsstring :=
  match l with
  | low => lit "low"
  | moderate => lit "moderate"
  | high => lit "high"
  end.

(** [h.level === 'high'] and the like. *)
Definition level_eqb (a b : Level) : bool :=
  match a, b with
  | low, low | moderate, moderate | high, high => true
  | _, _ => false
  end.

Definition name_eqb (a b : HazardName) : bool :=
  match a, b with
  | Earthquake, Earthquake | Typhoon, Typhoon | Flooding, Flooding
  | Tsunami, Tsunami | Landslide, Landslide => true
  | _, _ => false
  end.

(** [currentLocation = { lat, lon, placeName }]; [placeName] is [null] after
    a map click. *)
Record Location := mkLocation {
  lat : float;
  lon : float;
  placeName : option jsstring
}.

(** An element of the [chatMessages] array: [{ type, content }]. *)
Record ChatEntry := mkEntry { type : jsstring; content : jsstring }.

(** A message [div] appended to a chat container.  Of its [innerHTML] the
    two interpolated values are kept: the avatar text and the content. *)
Record MessageDiv := mkDiv {
  className : jsstring;
  avatar : jsstring;
  body : jsstring
}.

Record World := mkWorld {
  (** the values successive calls of [Math.random] return, and how many
      have been taken; the browser draws them from [0,1), here any number
      is admitted *)
  draws : nat -> float;
  cursor : nat;
  (** globals *)
  currentLocation : option Location;
  chatMessages : list ChatEntry;
  (** DOM: the two chat inputs and the two message containers *)
  chatInput : jsstring;
  modalChatInput : jsstring;
  chatPanel : list MessageDiv;
  modalChatPanel : list MessageDiv;
  (** ghost: the arguments [generateAIResponse] has been called with *)
  responderCalls : list jsstring
}.

(** The state monad of the program. *)
Definition M (A : Type) : Type := World -> A * World.

Definition ret {A} (a : A) : M A := fun w => (a, w).

Definition bind {A B} (c : M A) (k : A -> M B) : M B :=
  fun w => let (a, w') := c w in k a w'.

Declare Scope js_scope.
Delimit Scope js_scope with js.
Notation "x <- c ;; k" := (bind c (fun x => k))
  (at level 61, c at next level, right associativity) : js_scope.
Notation "c ;;; k" := (bind c (fun _ => k))
  (at level 61, right associativity) : js_scope.
#[local] Open Scope js_scope.

Definition value {A} (c : M A) (w : World) : A := fst (c w).
Definition after {A} (c : M A) (w : World) : World := snd (c w).

(** [Math.random()]. *)
Definition Math_random : M float :=
  fun w =>
    (draws w (cursor w),
     mkWorld (draws w) (S (cursor w)) (currentLocation w) (chatMessages w)
             (chatInput w) (modalChatInput w) (chatPanel w)
             (modalChatPanel w) (responderCalls w)).

(* ===================================================================== *)
(** ** Hazard identification and resilience *)
(* ===================================================================== *)

(** [Array.prototype.push] on a local array. *)
Definition push {A} (xs : list A) (x : A) : list A := xs ++ [x].

(** [Math.random() > 0.5]. *)
Definition isCoastal (r : float) : bool := gt r 0.5%float.

Definition identifyHazards (lat lon : float) : M (list Hazard) :=
  let hazards := [] in
  let hazards :=
    if lt (PrimFloat.abs (lat - 14.5995)%float) 2%float
       || lt (PrimFloat.abs (lat - 10.3157)%float) 2%float
    then push hazards (mkHazard Earthquake high)
    else push hazards (mkHazard Earthquake moderate) in
  let hazards :=
    if gt lon 121%float && lt lon 126%float
    then push hazards (mkHazard Typhoon high)
    else push hazards (mkHazard Typhoon moderate) in
  let hazards :=
    if lt lat 15%float && gt lat 10%float
    then push hazards (mkHazard Flooding moderate)
    else push hazards (mkHazard Flooding low) in
  r <- Math_random ;;
  let hazards :=
    if isCoastal r
    then push hazards (mkHazard Tsunami moderate)
    else hazards in
  let hazards :=
    if gt lat 16%float || (gt lat 6%float && lt lat 10%float)
    then push hazards (mkHazard Landslide moderate)
    else hazards in
  ret hazards.

(** The body of [calculateResilience] after its call of [identifyHazards]:
    the score of a hazard array. *)
Definition scoreHazards (hazards : list Hazard) : Z :=
  let highRiskCount :=
    Z.of_nat
      (List.length (filter (fun h => level_eqb (level h) high) hazards)) in
  let moderateRiskCount :=
    Z.of_nat
      (List.length (filter (fun h => level_eqb (level h) moderate) hazards)) in
  let score := 100 in
  let score := score - highRiskCount * 20 in
  let score := score - moderateRiskCount * 10 in
  Z.max 30 (Z.min 100 score).

Definition calculateResilience (lat lon : float) : M Z :=
  hazards <- identifyHazards lat lon ;;
  ret (scoreHazards hazards).

(** The scorer as the specification words it: start at 100, go through the
    hazards taking 20 off for a high one and 10 off for a moderate one, and
    clamp the outcome to [30,100]. *)
Definition spec_penalty (l : Level) : Z :=
  match l with
  | high => 20
  | moderate => 10
  | low => 0
  end.

Definition spec_clamp (lo hi x : Z) : Z :=
  if x <? lo then lo else if hi <? x then hi else x.

Definition spec_score (hazards : list Hazard) : Z :=
  spec_clamp 30 100
    (fold_left (fun score h => score - spec_penalty (level h)) hazards 100).

(* ===================================================================== *)
(** ** World access *)
(* ===================================================================== *)

Definition getCurrentLocation : M (option Location) :=
  fun w => (currentLocation w, w).

(** [document.getElementById(inputId).value], read and written. *)
Definition getInputValue (isModal : bool) : M jsstring :=
  fun w => (if isModal then modalChatInput w else chatInput w, w).

Definition setInputValue (isModal : bool) (v : jsstring) : M unit :=
  fun w =>
    (tt,
     mkWorld (draws w) (cursor w) (currentLocation w) (chatMessages w)
             (if isModal then chatInput w else v)
             (if isModal then v else modalChatInput w)
             (chatPanel w) (modalChatPanel w) (responderCalls w)).

(** [messagesContainer.appendChild(messageDiv)]. *)
Definition appendChild (isModal : bool) (d : MessageDiv) : M unit :=
  fun w =>
    (tt,
     mkWorld (draws w) (cursor w) (currentLocation w) (chatMessages w)
             (chatInput w) (modalChatInput w)
             (if isModal then chatPanel w else push (chatPanel w) d)
             (if isModal then push (modalChatPanel w) d else modalChatPanel w)
             (responderCalls w)).

(** [chatMessages.push(e)]. *)
Definition pushChatMessage (e : ChatEntry) : M unit :=
  fun w =>
    (tt,
     mkWorld (draws w) (cursor w) (currentLocation w)
             (push (chatMessages w) e)
             (chatInput w) (modalChatInput w) (chatPanel w)
             (modalChatPanel w) (responderCalls w)).

(** Ghost step: record a call of [generateAIResponse]. *)
Definition noteResponderCall (userMessage : jsstring) : M unit :=
  fun w =>
    (tt,
     mkWorld (draws w) (cursor w) (currentLocation w) (chatMessages w)
             (chatInput w) (modalChatInput w) (chatPanel w)
             (modalChatPanel w) (push (responderCalls w) userMessage)).

(* ===================================================================== *)
(** ** Population estimate *)
(* ===================================================================== *)

Definition estimates : list jsstring :=
  [lit "50K-100K"; lit "100K-250K"; lit "250K-500K"; lit "20K-50K"].

(** [xs[Math.floor(x)]], with [lo] the index of the head of [xs]: the
    element whose index [k] has [k <= x < k + 1], [undefined] when [x] is
    below [lo], beyond the last index, or NaN. *)
Fixpoint atFloor {A} (xs : list A) (lo x : float) : option A :=
  match xs with
  | [] => None
  | a :: rest =>
      if le lo x && lt x (lo + 1)%float then Some a
      else atFloor rest (lo + 1)%float x
  end.

(** [estimates.length] as a number. *)
Definition estimatesLength : float := 4%float.

(** The result is a string, or [undefined] ([None]) should the random
    index fall outside the array. *)
Definition estimatePopulation `{Runtime} (placeName : option jsstring)
  : M (option jsstring) :=
  match placeName with
  | None => ret (Some (lit "Unknown"))
  | Some placeName =>
      if falsy placeName then ret (Some (lit "Unknown")) else
      let lower := toLowerCase placeName in
      if includes lower (lit "metro manila") || includes lower (lit "manila")
      then ret (Some (lit "~13.5M"))
      else if includes lower (lit "quezon city") then ret (Some (lit "~2.9M"))
      else if includes lower (lit "cebu") then ret (Some (lit "~950K"))
      else if includes lower (lit "davao") then ret (Some (lit "~1.6M"))
      else if includes lower (lit "camarines") then ret (Some (lit "~580K"))
      else
        r <- Math_random ;;
        ret (atFloor estimates 0%float (r * estimatesLength)%float)
  end.

(* ===================================================================== *)
(** ** Location analysis *)
(* ===================================================================== *)

Module Report.

(** The [locationData] object of [analyzeLocation].  [coordinates] keeps
    the two numbers; their [toFixed(4)] rendering is not modelled. *)
Record t := mk {
  name : jsstring;
  coordinates : float * float;
  population : option jsstring;
  hazards : list Hazard;
  infrastructure : jsstring;
  resilience : Z
}.

End Report.

(** [analyzeLocation] up to the [locationData] object; the HTML it renders
    from that object is left out.  The properties are evaluated in source
    order. *)
Definition analyzeLocation `{Runtime} (lat lon : float) (placeName : jsstring)
  : M Report.t :=
  population <- estimatePopulation (Some placeName) ;;
  hazards <- identifyHazards lat lon ;;
  resilience <- calculateResilience lat lon ;;
  ret (Report.mk placeName (lat, lon) population hazards
                 (lit "Moderate") resilience).

(* ===================================================================== *)
(** ** Simulated assistant *)
(* ===================================================================== *)

Definition nl : jsstring := [10%N].
Definition degree : jsstring := [176%N].
Definition peso : jsstring := [8369%N].
Definition bullet : jsstring := [8226%N].

Definition isPopulationQuery (lowerMessage : jsstring) : bool :=
  includes lowerMessage (lit "population")
  || includes lowerMessage (lit "people")
  || includes lowerMessage (lit "ppl").

Definition isHazardQuery (lowerMessage : jsstring) : bool :=
  includes lowerMessage (lit "hazard")
  || includes lowerMessage (lit "risk")
  || includes lowerMessage (lit "danger")
  || includes lowerMessage (lit "safe").

Definition isSolutionQuery (lowerMessage : jsstring) : bool :=
  includes lowerMessage (lit "solution")
  || includes lowerMessage (lit "fix")
  || includes lowerMessage (lit "improve")
  || includes lowerMessage (lit "help").

Definition isWeatherQuery (lowerMessage : jsstring) : bool :=
  includes lowerMessage (lit "weather")
  || includes lowerMessage (lit "forecast")
  || includes lowerMessage (lit "rain")
  || includes lowerMessage (lit "typhoon").

Definition isVolcanoQuery (lowerMessage : jsstring) : bool :=
  includes lowerMessage (lit "volcano")
  || includes lowerMessage (lit "eruption")
  || includes lowerMessage (lit "mayon")
  || includes lowerMessage (lit "taal").

Definition isEarthquakeQuery (lowerMessage : jsstring) : bool :=
  includes lowerMessage (lit "earthquake")
  || includes lowerMessage (lit "seismic")
  || includes lowerMessage (lit "quake").

(** The body of the population branch. *)
Definition populationReply `{Runtime} : M jsstring :=
  loc <- getCurrentLocation ;;
  match loc with
  | Some currentLocation =>
      population <- estimatePopulation (placeName currentLocation) ;;
      ret (lit "Based on available data, the estimated population in " ++
           orElse (placeName currentLocation) (lit "this area") ++
           lit " is approximately " ++
           show population ++
           lit ". This is an estimate based on regional census data and " ++
           lit "recent demographic trends.")
  | None =>
      ret (lit "To provide population data, please click on a specific " ++
           lit "location on the map first.")
  end.

(** The body of the hazard branch. *)
Definition hazardReply : M jsstring :=
  loc <- getCurrentLocation ;;
  match loc with
  | Some currentLocation =>
      hazards <- identifyHazards (lat currentLocation) (lon currentLocation) ;;
      let hazardList :=
        join (lit ", ")
          (map (fun h => nameStr (name h) ++ lit " (" ++
                         levelStr (level h) ++ lit " risk)") hazards) in
      ret (lit "The primary hazards identified for this location include: " ++
           hazardList ++
           lit ". I recommend implementing structural reinforcements, " ++
           lit "early warning systems, and community preparedness " ++
           lit "programs. Would you like detailed architectural solutions " ++
           lit "for specific hazards?")
  | None =>
      ret (lit "Please select a location on the map to analyze hazard " ++
           lit "risks.")
  end.

(** The body of the solution branch. *)
Definition solutionReply : M jsstring :=
  loc <- getCurrentLocation ;;
  match loc with
  | Some currentLocation =>
      ret (lit "For " ++
           orElse (placeName currentLocation) (lit "this location") ++
           lit ", I recommend the following solutions:" ++
           nl ++ nl ++
           lit "1. **Flood Mitigation**: Install improved drainage " ++
           lit "systems with 2.5m deep channels, capacity for 150mm/hour " ++
           lit "rainfall" ++
           nl ++ nl ++
           lit "2. **Earthquake Resilience**: Retrofit critical buildings " ++
           lit "with base isolation systems, estimated cost " ++
           peso ++
           lit "2.5M per structure" ++
           nl ++ nl ++
           lit "3. **Evacuation Infrastructure**: Establish 3 evacuation " ++
           lit "centers within 500m radius, capacity 500 people each" ++
           nl ++ nl ++
           lit "4. **Early Warning System**: Deploy IoT sensors for " ++
           lit "real-time monitoring, estimated setup " ++
           peso ++
           lit "850K" ++
           nl ++ nl ++
           lit "Would you like 3D architectural mockups for any of these " ++
           lit "solutions?")
  | None =>
      ret (lit "Please select a specific location to receive tailored " ++
           lit "solutions.")
  end.

Definition weatherReply : jsstring :=
  lit "Current weather conditions:" ++
  nl ++
  lit "- Temperature: 28" ++
  degree ++
  lit "C" ++
  nl ++
  lit "- Humidity: 75%" ++
  nl ++
  lit "- Wind: 15 km/h NE" ++
  nl ++
  lit "- Conditions: Partly cloudy" ++
  nl ++ nl ++
  lit "7-Day Forecast: Mixed conditions with possible rain " ++
  lit "showers on Feb 8-9. No tropical cyclones currently " ++
  lit "threatening the area." ++
  nl ++ nl ++
  lit "Would you like detailed impact analysis on local " ++
  lit "infrastructure?".

Definition volcanoReply : jsstring :=
  lit "Active Volcano Status:" ++
  nl ++ nl ++
  lit "**Mayon Volcano**: Alert Level 2 (Increasing unrest)" ++
  nl ++
  lit "- Distance from you: ~245 km" ++
  nl ++
  lit "- Last activity: Minor ash emission Feb 4, 2026" ++
  nl ++
  lit "- Danger zone: 6km radius" ++
  nl ++ nl ++
  lit "**Taal Volcano**: Alert Level 1 (Abnormal)" ++
  nl ++
  lit "- Distance from you: ~180 km" ++
  nl ++
  lit "- Last activity: Phreatic eruption Jan 2026" ++
  nl ++
  lit "- Danger zone: Crater area" ++
  nl ++ nl ++
  lit "Recommendations: Monitor PHIVOLCS bulletins, prepare " ++
  lit "evacuation plans for communities within 10km.".

Definition earthquakeReply : jsstring :=
  lit "Recent Seismic Activity:" ++
  nl ++ nl ++
  lit "**Latest Event**: Magnitude 4.2" ++
  nl ++
  lit "- Location: 15km NE of Mindoro" ++
  nl ++
  lit "- Depth: 10km" ++
  nl ++
  lit "- Time: Feb 6, 2026 08:15 AM" ++
  nl ++
  lit "- Intensity: III (Weak)" ++
  nl ++ nl ++
  lit "**Fault Lines Nearby**:" ++
  nl ++
  lit "- West Valley Fault: 35km" ++
  nl ++
  lit "- East Valley Fault: 42km" ++
  nl ++
  lit "- Marikina Fault: 28km" ++
  nl ++ nl ++
  lit "Risk Assessment: Moderate seismic risk. Buildings should " ++
  lit "comply with NSCP 2015 earthquake-resistant standards.".

Definition defaultReply : jsstring :=
  lit "I'm AI VISION, your intelligent spatial analysis " ++
  lit "assistant. I can help you with:" ++
  nl ++ nl ++ bullet ++
  lit " Population and demographic data" ++
  nl ++ bullet ++
  lit " Hazard and risk assessments" ++
  nl ++ bullet ++
  lit " Infrastructure solutions and recommendations" ++
  nl ++ bullet ++
  lit " Weather forecasts and disaster monitoring" ++
  nl ++ bullet ++
  lit " Volcanic and seismic activity tracking" ++
  nl ++ bullet ++
  lit " 3D architectural planning" ++
  nl ++ nl ++
  lit "Click anywhere on the map or ask me a specific question " ++
  lit "about any location in the Philippines!".

Definition generateAIResponse `{Runtime} (userMessage : jsstring)
  : M jsstring :=
  noteResponderCall userMessage ;;;
  let lowerMessage := toLowerCase userMessage in
  if isPopulationQuery lowerMessage then populationReply
  else if isHazardQuery lowerMessage then hazardReply
  else if isSolutionQuery lowerMessage then solutionReply
  else if isWeatherQuery lowerMessage then ret weatherReply
  else if isVolcanoQuery lowerMessage then ret volcanoReply
  else if isEarthquakeQuery lowerMessage then ret earthquakeReply
  else ret defaultReply.

(* ===================================================================== *)
(** ** Chat *)
(* ===================================================================== *)

(** [a === b] on strings. *)
Fixpoint strictEq (a b : jsstring) : bool :=
  match a, b with
  | [], [] => true
  | x :: a', y :: b' => unit_eqb x y && strictEq a' b'
  | _, _ => false
  end.

(** [isModal] stands for the truthiness of the argument.  The scroll
    position of the container is not modelled. *)
Definition addChatMessage (type content : jsstring) (isModal : bool)
  : M unit :=
  let messageDiv :=
    mkDiv (if strictEq type (lit "ai")
           then lit "ai-message" else lit "user-message")
          (if strictEq type (lit "ai") then lit "AI" else lit "U")
          content in
  appendChild isModal messageDiv ;;;
  pushChatMessage (mkEntry type content).

(** The two awaited steps run one after the other; nothing else runs in
    between. *)
Definition sendChatMessage `{Runtime} (isModal : bool) : M unit :=
  inputValue <- getInputValue isModal ;;
  let message := trim inputValue in
  if falsy message then ret tt else
  addChatMessage (lit "user") message isModal ;;;
  setInputValue isModal [] ;;;
  aiResponse <- generateAIResponse message ;;
  addChatMessage (lit "ai") aiResponse isModal.

Definition imageAnalysis : jsstring :=
  lit "Based on the image analysis, this appears to be an urban " ++
  lit "area with mixed residential and commercial development. " ++
  lit "Structural analysis indicates standard concrete " ++
  lit "construction. I've identified potential drainage issues " ++
  lit "and recommend installing retention basins. Coordinates " ++
  lit "estimated at approximately 14.5995" ++
  degree ++
  lit "N, 120.9842" ++
  degree ++
  lit "E (Metro Manila area). Would you like detailed " ++
  lit "infrastructure recommendations?".

(** The timer callback of [handleImageUpload], the one place outside
    [sendChatMessage] that calls [addChatMessage]. *)
Definition imageAnalysisDone (isModal : bool) : M unit :=
  addChatMessage (lit "ai") imageAnalysis isModal.

(* ===================================================================== *)
(** ** A page session *)
(* ===================================================================== *)

(** [currentLocation = { lat, lon, placeName }], the first statement of
    [loadLocationInfo]. *)
Definition setCurrentLocation (lat lon : float) (placeName : option jsstring)
  : M unit :=
  fun w =>
    (tt,
     mkWorld (draws w) (cursor w) (Some (mkLocation lat lon placeName))
             (chatMessages w) (chatInput w) (modalChatInput w) (chatPanel w)
             (modalChatPanel w) (responderCalls w)).

(** What can happen to the chat state during a session: the user edits one
    of the two inputs, a location is selected, a send handler runs, or the
    image-analysis timer fires. *)
Inductive ChatEvent :=
| InputEdited (isModal : bool) (text : jsstring)
| LocationSelected (lat lon : float) (placeName : option jsstring)
| SendRequested (isModal : bool)
| ImageAnalysed (isModal : bool).

Definition runEvent `{Runtime} (ev : ChatEvent) : M unit :=
  match ev with
  | InputEdited isModal text => setInputValue isModal text
  | LocationSelected lat lon placeName => setCurrentLocation lat lon placeName
  | SendRequested isModal => sendChatMessage isModal
  | ImageAnalysed isModal => imageAnalysisDone isModal
  end.

Fixpoint runEvents `{Runtime} (evs : list ChatEvent) (w : World) : World :=
  match evs with
  | [] => w
  | ev :: rest => runEvents rest (after (runEvent ev) w)
  end.

(** The two roles of the specification's ChatMessage, and the role a
    [type] tag stands for: ['user'] for the user, ['ai'] for the
    assistant. *)
Inductive Role := user | assistant.

Definition roleOf (type : jsstring) : option Role :=
  if strictEq type (lit "user") then Some user
  else if strictEq type (lit "ai") then Some assistant
  else None.

Definition hasRole (e : ChatEntry) : Prop :=
  exists r : Role, roleOf (type e) = Some r.

(** The state the page starts in: no location selected, an empty chat
    history, empty inputs and containers. *)
Definition initialWorld (draws : nat -> float) : World :=
  mkWorld draws 0 None [] [] [] [] [] [].

(* ===================================================================== *)
(** ** Sample data *)
(* ===================================================================== *)

(** The coordinate of the first entry of the hazard-zone table. *)
Definition manilaLat : float := 14.5995%float.
Definition manilaLon : float := 120.9842%float.

(** A random source that always returns [r]. *)
Definition constantDraws (r : float) : nat -> float := fun _ => r.

(** A random source whose draws alternate between 0.75 and 0.25. *)
Definition alternatingDraws : nat -> float :=
  fun n => if Nat.even n then 0.75%float else 0.25%float.

(** A state whose side-panel input holds a space, a tab, a no-break space
    and a line feed. *)
Definition blankInputWorld : World :=
  mkWorld (constantDraws 0.25%float) 0 None [mkEntry (lit "user") (lit "hi")]
          [32; 9; 160; 10]%N [] [] [] [].

(** A state in which a location without a name was selected by a map click
    and a question waits in the side-panel input. *)
Definition askingWorld : World :=
  mkWorld alternatingDraws 0
          (Some (mkLocation manilaLat manilaLon None)) []
          (lit "  How many PEOPLE are at risk? ") [] [] [] [].

(* ===================================================================== *)
(** ** Event wiring of the chat controls *)
(* ===================================================================== *)

(** The listeners [initializeEventListeners] registers on the chat
    controls.  A listener is called with the event object as its argument.
    On the side-panel button [sendChatMessage] itself is the listener, so
    its [isModal] parameter receives that object, which is truthy; the
    other three listeners are arrow functions that pass [isModal]
    themselves (or nothing). *)
Definition sendChatClicked `{Runtime} : M unit :=
  sendChatMessage true.

Definition chatInputKeypress `{Runtime} (key : jsstring) : M unit :=
  if strictEq key (lit "Enter") then sendChatMessage false else ret tt.

Definition modalSendChatClicked `{Runtime} : M unit :=
  sendChatMessage true.

Definition modalChatInputKeypress `{Runtime} (key : jsstring) : M unit :=
  if strictEq key (lit "Enter") then sendChatMessage true else ret tt.

(* ===================================================================== *)
(** ** Notions used to state the properties *)
(* ===================================================================== *)

(** [w] once [n] more draws have been taken, all else as it was. *)
Definition advance (n : nat) (w : World) : World :=
  mkWorld (draws w) (n + cursor w) (currentLocation w) (chatMessages w)
          (chatInput w) (modalChatInput w) (chatPanel w)
          (modalChatPanel w) (responderCalls w).

(** The [div] that [addChatMessage] builds for an entry. *)
Definition divOf (e : ChatEntry) : MessageDiv :=
  mkDiv (if strictEq (type e) (lit "ai")
         then lit "ai-message" else lit "user-message")
        (if strictEq (type e) (lit "ai") then lit "AI" else lit "U")
        (content e).

(** Every entry tagged ['user'] is directly followed by one tagged
    ['ai']. *)
Fixpoint answered (entries : list ChatEntry) : bool :=
  match entries with
  | [] => true
  | e :: rest =>
      (if strictEq (type e) (lit "user")
       then match rest with
            | reply :: _ => strictEq (type reply) (lit "ai")
            | [] => false
            end
       else true)
      && answered rest
  end.

(** The score before it is clamped. *)
Definition rawScore (hazards : list Hazard) : Z :=
  100
  - Z.of_nat
      (List.length (filter (fun h => level_eqb (level h) high) hazards)) * 20
  - Z.of_nat
      (List.length (filter (fun h => level_eqb (level h) moderate) hazards))
    * 10.

(** A string that is not empty and neither starts nor ends with white
    space. *)
Definition isTrimmed (s : jsstring) : bool :=
  match s with
  | [] => false
  | c :: _ => negb (isWhiteSpace c) && negb (isWhiteSpace (last s c))
  end.

(** The six substrings [estimatePopulation] looks for, in source order. *)
Definition cityKeywords : list jsstring :=
  [ lit "metro manila"; lit "manila"; lit "quezon city"; lit "cebu";
    lit "davao"; lit "camarines" ].

(** The seven replies [generateAIResponse] can give when no location is
    selected. *)
Definition repliesWithoutLocation : list jsstring :=
  [ lit "To provide population data, please click on a specific " ++
    lit "location on the map first.";
    lit "Please select a location on the map to analyze hazard " ++
    lit "risks.";
    lit "Please select a specific location to receive tailored " ++
    lit "solutions.";
    weatherReply; volcanoReply; earthquakeReply; defaultReply ].

(* ===================================================================== *)
(** ** The page: map, panels and controls *)
(* ===================================================================== *)

(** The rest of the page state [main.js] works on.  Leaflet and
    OSMBuildings are used through a few calls only; what is kept of them is
    the list of the layer objects the script itself puts on the map (the
    circles inside the hazard layer group and the popups are not listed),
    the view, and the fact that a coordinate with a NaN component is
    refused ([L.latLng] throws).  A handler that waits for the network is
    split at the wait: the part up to the [fetch], and the part that runs
    when the answer has arrived. *)

Inductive LayerKind := TileKind | GroupKind | BuildingsKind | MarkerKind.

(** A layer object; [layerId] stands for its identity. *)
Record Layer := mkLayer { layerId : nat; kind : LayerKind }.

Definition sameLayer (a b : Layer) : bool := Nat.eqb (layerId a) (layerId b).

(** A marker: its layer object, its position and the text of its popup. *)
Record Marker := mkMarker {
  markerLayer : Layer;
  position : float * float;
  popup : option jsstring
}.

(** [element.style.display]: not set by the script yet, ['block'] or
    ['none']. *)
Inductive Display := DisplayUnset | DisplayBlock | DisplayNone.

(** What [infoPanelContent] shows: its initial markup, the loading notice,
    an analysis (kept as the [locationData] it is rendered from) or the
    error notice. *)
Inductive PanelContent :=
| ContentInitial
| ContentLoading
| ContentAnalysis (locationData : Report.t)
| ContentError.

(** A [fetch] issued to the geocoding service. *)
Inductive Request :=
| SearchRequest (query : jsstring)
| ReverseRequest (lat lon : float).

(** An element of a search response, with [parseFloat] applied to its
    coordinates. *)
Record SearchHit := mkHit {
  hitLat : float;
  hitLon : float;
  display_name : option jsstring
}.


(** Globals ([markers], [is3DMode], [osmb], [satelliteLayer],
    [currentLocation] and [chatMessages] inside [world]), the map, and the
    elements the handlers read or write.  [created] counts the layer
    objects made so far; [alerts] and [requests] log the calls of [alert]
    and [fetch]. *)
Record Page := mkPage {
  world : World;
  created : nat;
  mapLayers : list Layer;
  mapView : float * float * Z;
  markers : list Marker;
  is3DMode : bool;
  osmb : option Layer;
  satelliteLayer : option Layer;
  toggle3DActive : bool;
  toggleSatelliteActive : bool;
  toggleHazardsActive : bool;
  hazardLegend : Display;
  infoPanel : Display;
  infoPanelContent : PanelContent;
  loadingActive : bool;
  aiModalActive : bool;
  searchInput : jsstring;
  alerts : list jsstring;
  requests : list Request
}.

Definition PM (A : Type) : Type := Page -> A * Page.

Definition retP {A} (a : A) : PM A := fun p => (a, p).

Definition bindP {A B} (c : PM A) (k : A -> PM B) : PM B :=
  fun p => let (a, p') := c p in k a p'.

Notation "x <~ c ;; k" := (bindP c (fun x => k))
  (at level 61, c at next level, right associativity).
Notation "c >> k" := (bindP c (fun _ => k))
  (at level 61, right associativity).

Definition valueP {A} (c : PM A) (p : Page) : A := fst (c p).
Definition afterP {A} (c : PM A) (p : Page) : Page := snd (c p).

Definition get {A} (field : Page -> A) : PM A := fun p => (field p, p).

Definition setWorld (v : World) : PM unit :=
  fun p =>
    (tt, mkPage v (created p) (mapLayers p) (mapView p) (markers p)
            (is3DMode p) (osmb p) (satelliteLayer p) (toggle3DActive p)
            (toggleSatelliteActive p) (toggleHazardsActive p)
            (hazardLegend p) (infoPanel p) (infoPanelContent p)
            (loadingActive p) (aiModalActive p) (searchInput p) (alerts p)
            (requests p)).

Definition setCreated (v : nat) : PM unit :=
  fun p =>
    (tt, mkPage (world p) v (mapLayers p) (mapView p) (markers p)
            (is3DMode p) (osmb p) (satelliteLayer p) (toggle3DActive p)
            (toggleSatelliteActive p) (toggleHazardsActive p)
            (hazardLegend p) (infoPanel p) (infoPanelContent p)
            (loadingActive p) (aiModalActive p) (searchInput p) (alerts p)
            (requests p)).

Definition setMapLayers (v : list Layer) : PM unit :=
  fun p =>
    (tt, mkPage (world p) (created p) v (mapView p) (markers p) (is3DMode p)
            (osmb p) (satelliteLayer p) (toggle3DActive p)
            (toggleSatelliteActive p) (toggleHazardsActive p)
            (hazardLegend p) (infoPanel p) (infoPanelContent p)
            (loadingActive p) (aiModalActive p) (searchInput p) (alerts p)
            (requests p)).

Definition setMapView (v : float * float * Z) : PM unit :=
  fun p =>
    (tt, mkPage (world p) (created p) (mapLayers p) v (markers p)
            (is3DMode p) (osmb p) (satelliteLayer p) (toggle3DActive p)
            (toggleSatelliteActive p) (toggleHazardsActive p)
            (hazardLegend p) (infoPanel p) (infoPanelContent p)
            (loadingActive p) (aiModalActive p) (searchInput p) (alerts p)
            (requests p)).

Definition setMarkers (v : list Marker) : PM unit :=
  fun p =>
    (tt, mkPage (world p) (created p) (mapLayers p) (mapView p) v
            (is3DMode p) (osmb p) (satelliteLayer p) (toggle3DActive p)
            (toggleSatelliteActive p) (toggleHazardsActive p)
            (hazardLegend p) (infoPanel p) (infoPanelContent p)
            (loadingActive p) (aiModalActive p) (searchInput p) (alerts p)
            (requests p)).

Definition setIs3DMode (v : bool) : PM unit :=
  fun p =>
    (tt, mkPage (world p) (created p) (mapLayers p) (mapView p) (markers p)
            v (osmb p) (satelliteLayer p) (toggle3DActive p)
            (toggleSatelliteActive p) (toggleHazardsActive p)
            (hazardLegend p) (infoPanel p) (infoPanelContent p)
            (loadingActive p) (aiModalActive p) (searchInput p) (alerts p)
            (requests p)).

Definition setOsmb (v : option Layer) : PM unit :=
  fun p =>
    (tt, mkPage (world p) (created p) (mapLayers p) (mapView p) (markers p)
            (is3DMode p) v (satelliteLayer p) (toggle3DActive p)
            (toggleSatelliteActive p) (toggleHazardsActive p)
            (hazardLegend p) (infoPanel p) (infoPanelContent p)
            (loadingActive p) (aiModalActive p) (searchInput p) (alerts p)
            (requests p)).

Definition setSatelliteLayer (v : option Layer) : PM unit :=
  fun p =>
    (tt, mkPage (world p) (created p) (mapLayers p) (mapView p) (markers p)
            (is3DMode p) (osmb p) v (toggle3DActive p)
            (toggleSatelliteActive p) (toggleHazardsActive p)
            (hazardLegend p) (infoPanel p) (infoPanelContent p)
            (loadingActive p) (aiModalActive p) (searchInput p) (alerts p)
            (requests p)).

Definition setToggle3DActive (v : bool) : PM unit :=
  fun p =>
    (tt, mkPage (world p) (created p) (mapLayers p) (mapView p) (markers p)
            (is3DMode p) (osmb p) (satelliteLayer p) v
            (toggleSatelliteActive p) (toggleHazardsActive p)
            (hazardLegend p) (infoPanel p) (infoPanelContent p)
            (loadingActive p) (aiModalActive p) (searchInput p) (alerts p)
            (requests p)).

Definition setToggleSatelliteActive (v : bool) : PM unit :=
  fun p =>
    (tt, mkPage (world p) (created p) (mapLayers p) (mapView p) (markers p)
            (is3DMode p) (osmb p) (satelliteLayer p) (toggle3DActive p) v
            (toggleHazardsActive p) (hazardLegend p) (infoPanel p)
            (infoPanelContent p) (loadingActive p) (aiModalActive p)
            (searchInput p) (alerts p) (requests p)).

Definition setToggleHazardsActive (v : bool) : PM unit :=
  fun p =>
    (tt, mkPage (world p) (created p) (mapLayers p) (mapView p) (markers p)
            (is3DMode p) (osmb p) (satelliteLayer p) (toggle3DActive p)
            (toggleSatelliteActive p) v (hazardLegend p) (infoPanel p)
            (infoPanelContent p) (loadingActive p) (aiModalActive p)
            (searchInput p) (alerts p) (requests p)).

Definition setHazardLegend (v : Display) : PM unit :=
  fun p =>
    (tt, mkPage (world p) (created p) (mapLayers p) (mapView p) (markers p)
            (is3DMode p) (osmb p) (satelliteLayer p) (toggle3DActive p)
            (toggleSatelliteActive p) (toggleHazardsActive p) v
            (infoPanel p) (infoPanelContent p) (loadingActive p)
            (aiModalActive p) (searchInput p) (alerts p) (requests p)).

Definition setInfoPanel (v : Display) : PM unit :=
  fun p =>
    (tt, mkPage (world p) (created p) (mapLayers p) (mapView p) (markers p)
            (is3DMode p) (osmb p) (satelliteLayer p) (toggle3DActive p)
            (toggleSatelliteActive p) (toggleHazardsActive p)
            (hazardLegend p) v (infoPanelContent p) (loadingActive p)
            (aiModalActive p) (searchInput p) (alerts p) (requests p)).

Definition setInfoPanelContent (v : PanelContent) : PM unit :=
  fun p =>
    (tt, mkPage (world p) (created p) (mapLayers p) (mapView p) (markers p)
            (is3DMode p) (osmb p) (satelliteLayer p) (toggle3DActive p)
            (toggleSatelliteActive p) (toggleHazardsActive p)
            (hazardLegend p) (infoPanel p) v (loadingActive p)
            (aiModalActive p) (searchInput p) (alerts p) (requests p)).

Definition setLoadingActive (v : bool) : PM unit :=
  fun p =>
    (tt, mkPage (world p) (created p) (mapLayers p) (mapView p) (markers p)
            (is3DMode p) (osmb p) (satelliteLayer p) (toggle3DActive p)
            (toggleSatelliteActive p) (toggleHazardsActive p)
            (hazardLegend p) (infoPanel p) (infoPanelContent p) v
            (aiModalActive p) (searchInput p) (alerts p) (requests p)).

Definition setAiModalActive (v : bool) : PM unit :=
  fun p =>
    (tt, mkPage (world p) (created p) (mapLayers p) (mapView p) (markers p)
            (is3DMode p) (osmb p) (satelliteLayer p) (toggle3DActive p)
            (toggleSatelliteActive p) (toggleHazardsActive p)
            (hazardLegend p) (infoPanel p) (infoPanelContent p)
            (loadingActive p) v (searchInput p) (alerts p) (requests p)).

Definition setSearchInput (v : jsstring) : PM unit :=
  fun p =>
    (tt, mkPage (world p) (created p) (mapLayers p) (mapView p) (markers p)
            (is3DMode p) (osmb p) (satelliteLayer p) (toggle3DActive p)
            (toggleSatelliteActive p) (toggleHazardsActive p)
            (hazardLegend p) (infoPanel p) (infoPanelContent p)
            (loadingActive p) (aiModalActive p) v (alerts p) (requests p)).

Definition setAlerts (v : list jsstring) : PM unit :=
  fun p =>
    (tt, mkPage (world p) (created p) (mapLayers p) (mapView p) (markers p)
            (is3DMode p) (osmb p) (satelliteLayer p) (toggle3DActive p)
            (toggleSatelliteActive p) (toggleHazardsActive p)
            (hazardLegend p) (infoPanel p) (infoPanelContent p)
            (loadingActive p) (aiModalActive p) (searchInput p) v
            (requests p)).

Definition setRequests (v : list Request) : PM unit :=
  fun p =>
    (tt, mkPage (world p) (created p) (mapLayers p) (mapView p) (markers p)
            (is3DMode p) (osmb p) (satelliteLayer p) (toggle3DActive p)
            (toggleSatelliteActive p) (toggleHazardsActive p)
            (hazardLegend p) (infoPanel p) (infoPanelContent p)
            (loadingActive p) (aiModalActive p) (searchInput p) (alerts p) v).

(** A computation on the chat and analysis state, run inside the page. *)
Definition liftW {A} (c : M A) : PM A :=
  fun p => let (a, w') := c (world p) in (a, snd (setWorld w' p)).

(** The hazard layer group [initializeMap] creates after the tile layer. *)
Definition tileLayer : Layer := mkLayer 0 TileKind.
Definition hazardLayer : Layer := mkLayer 1 GroupKind.

(** [config.defaultCenter] and [config.defaultZoom]. *)
Definition defaultView : float * float * Z :=
  ((12.8797%float, 121.7740%float), 6).

(** A new layer object. *)
Definition newLayer (k : LayerKind) : PM Layer :=
  n <~ get created ;;
  setCreated (S n) >>
  retP (mkLayer n k).

(** [layer.addTo(map)] / [map.addLayer(layer)]: a layer already on the map
    is not added again. *)
Definition addLayer (l : Layer) : PM unit :=
  ls <~ get mapLayers ;;
  if existsb (sameLayer l) ls then retP tt else setMapLayers (ls ++ [l]).

(** [map.removeLayer(layer)]. *)
Definition removeLayer (l : Layer) : PM unit :=
  ls <~ get mapLayers ;;
  setMapLayers (filter (fun x => negb (sameLayer l x)) ls).

(** [map.hasLayer(layer)]. *)
Definition hasLayer (l : Layer) : PM bool :=
  ls <~ get mapLayers ;;
  retP (existsb (sameLayer l) ls).

(** [Array.prototype.forEach]. *)
Fixpoint forEach {A} (xs : list A) (f : A -> PM unit) : PM unit :=
  match xs with
  | [] => retP tt
  | x :: rest => f x >> forEach rest f
  end.

(** [L.latLng] accepts a coordinate unless a component is NaN. *)
Definition validLatLng (lat lon : float) : bool :=
  negb (is_nan lat || is_nan lon).

Definition fetch (r : Request) : PM unit :=
  rs <~ get requests ;;
  setRequests (rs ++ [r]).

Definition alert (text : jsstring) : PM unit :=
  texts <~ get alerts ;;
  setAlerts (texts ++ [text]).

Definition showLoading (show : bool) : PM unit :=
  setLoadingActive show.

Definition clearMarkers : PM unit :=
  ms <~ get markers ;;
  forEach ms (fun marker => removeLayer (markerLayer marker)) >>
  setMarkers [].

(** [L.marker([lat, lon]).addTo(map)], with the popup bound to it if any,
    followed by [markers.push(marker)]. *)
Definition addMarker (lat lon : float) (popup : option jsstring) : PM unit :=
  layer <~ newLayer MarkerKind ;;
  addLayer layer >>
  ms <~ get markers ;;
  setMarkers (ms ++ [mkMarker layer (lat, lon) popup]).

(** The end of [loadLocationInfo], once a place name is at hand: the
    analysis is computed and shown. *)
Definition showAnalysis `{Runtime} (lat lon : float) (placeName : jsstring)
  : PM unit :=
  analysis <~ liftW (analyzeLocation lat lon placeName) ;;
  setInfoPanelContent (ContentAnalysis analysis).

(** [loadLocationInfo] up to the point where it waits for the reverse
    geocoder, or to its end when a place name was passed. *)
Definition loadLocationInfo `{Runtime} (lat lon : float)
           (placeName : option jsstring) : PM unit :=
  liftW (setCurrentLocation lat lon placeName) >>
  setInfoPanel DisplayBlock >>
  setInfoPanelContent ContentLoading >>
  match placeName with
  | Some (c :: s) => showAnalysis lat lon (c :: s)
  | _ => fetch (ReverseRequest lat lon)
  end.

(** The rest of [loadLocationInfo] when the reverse geocoder has answered
    the request made for [lat], [lon]:
    [placeName = geoData.display_name || 'Unknown Location']. *)
Definition reverseGeocoded `{Runtime} (lat lon : float)
           (display_name : option jsstring) : PM unit :=
  showAnalysis lat lon (orElse display_name (lit "Unknown Location")).

(** The [catch] branch of [loadLocationInfo]. *)
Definition reverseGeocodeFailed : PM unit :=
  setInfoPanelContent ContentError.

(** [handleMapClick] up to the wait inside [loadLocationInfo].  A
    coordinate Leaflet refuses stops the handler at [L.marker]. *)
Definition handleMapClick `{Runtime} (lat lon : float) : PM unit :=
  clearMarkers >>
  if validLatLng lat lon
  then addMarker lat lon None >> loadLocationInfo lat lon None
  else retP tt.

Definition notFoundText : jsstring :=
  lit "Location not found. Please try a different search term.".

Definition searchErrorText : jsstring :=
  lit "Error performing search. Please try again.".

(** [performSearch] up to its wait for the search response. *)
Definition performSearch : PM unit :=
  text <~ get searchInput ;;
  let query := trim text in
  if falsy query then retP tt else
  showLoading true >>
  fetch (SearchRequest query).

(** The rest of [performSearch] when the response has arrived.  A first
    result whose coordinate Leaflet refuses makes [map.setView] throw: the
    [catch] branch runs. *)
Definition searchAnswered `{Runtime} (results : list SearchHit) : PM unit :=
  match results with
  | location :: _ =>
      let lat := hitLat location in
      let lon := hitLon location in
      if validLatLng lat lon
      then setMapView ((lat, lon), 13) >>
           addMarker lat lon (display_name location) >>
           loadLocationInfo lat lon (display_name location)
      else alert searchErrorText
  | [] => alert notFoundText
  end >>
  showLoading false.

(** The [catch] and [finally] branches of [performSearch] when the request
    or its decoding fails. *)
Definition searchFailed : PM unit :=
  alert searchErrorText >>
  showLoading false.

Definition toggle3DView : PM unit :=
  mode <~ get is3DMode ;;
  if negb mode then
    buildings <~ get osmb ;;
    match buildings with
    | None =>
        layer <~ newLayer BuildingsKind ;;
        addLayer layer >>
        setOsmb (Some layer)
    | Some _ => retP tt
    end >>
    setToggle3DActive true >>
    setIs3DMode true
  else
    buildings <~ get osmb ;;
    match buildings with
    | Some layer => removeLayer layer >> setOsmb None
    | None => retP tt
    end >>
    setToggle3DActive false >>
    setIs3DMode false.

Definition toggleSatellite : PM unit :=
  satellite <~ get satelliteLayer ;;
  match satellite with
  | None =>
      layer <~ newLayer TileKind ;;
      addLayer layer >>
      setSatelliteLayer (Some layer) >>
      setToggleSatelliteActive true
  | Some layer =>
      removeLayer layer >>
      setSatelliteLayer None >>
      setToggleSatelliteActive false
  end.

Definition toggleHazards : PM unit :=
  shown <~ hasLayer hazardLayer ;;
  if shown then
    removeLayer hazardLayer >>
    setToggleHazardsActive false >>
    setHazardLegend DisplayNone
  else
    addLayer hazardLayer >>
    setToggleHazardsActive true >>
    setHazardLegend DisplayBlock.

(** [modalMessages.innerHTML = chatMessages.innerHTML]: the full-screen
    container gets the children of the side-panel container. *)
Definition copyToModal : M unit :=
  fun w =>
    (tt,
     mkWorld (draws w) (cursor w) (currentLocation w) (chatMessages w)
             (chatInput w) (modalChatInput w) (chatPanel w)
             (chatPanel w) (responderCalls w)).

(** The copy in the other direction. *)
Definition copyFromModal : M unit :=
  fun w =>
    (tt,
     mkWorld (draws w) (cursor w) (currentLocation w) (chatMessages w)
             (chatInput w) (modalChatInput w) (modalChatPanel w)
             (modalChatPanel w) (responderCalls w)).

Definition openFullScreenChat : PM unit :=
  liftW copyToModal >>
  setAiModalActive true.

Definition closeFullScreenChat : PM unit :=
  setAiModalActive false >>
  liftW copyFromModal.

(** What can happen on the page, one handler or one continuation at a
    time. *)
Inductive PageEvent :=
| MapClicked (lat lon : float)
| ReverseGeocoded (lat lon : float) (display_name : option jsstring)
| ReverseGeocodeFailed
| SearchEdited (text : jsstring)
| SearchSubmitted
| SearchAnswered (results : list SearchHit)
| SearchFailed
| Toggle3DClicked
| ToggleSatelliteClicked
| ToggleHazardsClicked
| FullScreenOpened
| FullScreenClosed
| SendButtonClicked
| ChatHappened (ev : ChatEvent).

Definition runPageEvent `{Runtime} (ev : PageEvent) : PM unit :=
  match ev with
  | MapClicked lat lon => handleMapClick lat lon
  | ReverseGeocoded lat lon display_name => reverseGeocoded lat lon display_name
  | ReverseGeocodeFailed => reverseGeocodeFailed
  | SearchEdited text => setSearchInput text
  | SearchSubmitted => performSearch
  | SearchAnswered results => searchAnswered results
  | SearchFailed => searchFailed
  | Toggle3DClicked => toggle3DView
  | ToggleSatelliteClicked => toggleSatellite
  | ToggleHazardsClicked => toggleHazards
  | FullScreenOpened => openFullScreenChat
  | FullScreenClosed => closeFullScreenChat
  | SendButtonClicked => liftW sendChatClicked
  | ChatHappened ev => liftW (runEvent ev)
  end.

Fixpoint runPageEvents `{Runtime} (evs : list PageEvent) (p : Page) : Page :=
  match evs with
  | [] => p
  | ev :: rest => runPageEvents rest (afterP (runPageEvent ev) p)
  end.

(** The page once [initializeMap] has run: the tile layer and the hazard
    layer group are on the map at the default view, the globals have their
    declared values and nothing has been requested or alerted.  What the
    markup of the page fixes (classes, display, inputs, containers) is
    left open. *)
Definition initialized (p : Page) : Prop :=
  created p = 2%nat /\
  mapLayers p = [tileLayer; hazardLayer] /\
  mapView p = defaultView /\
  markers p = [] /\
  is3DMode p = false /\
  osmb p = None /\
  satelliteLayer p = None /\
  currentLocation (world p) = None /\
  chatMessages (world p) = [] /\
  alerts p = [] /\
  requests p = [].

Definition hasKind (k : LayerKind) (l : Layer) : bool :=
  match k, kind l with
  | TileKind, TileKind | GroupKind, GroupKind
  | BuildingsKind, BuildingsKind | MarkerKind, MarkerKind => true
  | _, _ => false
  end.

(** The layers of one kind among [ls], in the order they were added. *)
Definition ofKind (k : LayerKind) (ls : list Layer) : list Layer :=
  filter (hasKind k) ls.

Definition optList {A} (o : option A) : list A :=
  match o with Some a => [a] | None => [] end.

Definition isSome {A} (o : option A) : bool :=
  match o with Some _ => true | None => false end.

(** How the globals and the map fit together: layer objects are distinct
    and were all created by the page, the second of them being
    [hazardLayer]; the markers on the map are those of the [markers] array;
    the buildings layer is on the map exactly when [osmb] holds it, which
    is when [is3DMode] is set; besides the base tile layer the only tile
    layer on the map is the one [satelliteLayer] holds; the only layer
    group that can be on the map is [hazardLayer]. *)
Definition consistent (p : Page) : Prop :=
  NoDup (map layerId (mapLayers p)) /\
  Forall (fun l => (layerId l < created p)%nat) (mapLayers p) /\
  (2 <= created p)%nat /\
  Forall (fun l => layerId l = 1%nat -> l = hazardLayer) (mapLayers p) /\
  ofKind MarkerKind (mapLayers p) = map markerLayer (markers p) /\
  ofKind BuildingsKind (mapLayers p) = optList (osmb p) /\
  is3DMode p = isSome (osmb p) /\
  ofKind TileKind (mapLayers p) = tileLayer :: optList (satelliteLayer p) /\
  (ofKind GroupKind (mapLayers p) = [hazardLayer] \/
   ofKind GroupKind (mapLayers p) = []).

(** The globals and the part of the map that [consistent] speaks of. *)
Definition core (p : Page)
  : nat * list Layer * list Marker * bool * option Layer * option Layer :=
  (created p, mapLayers p, markers p, is3DMode p, osmb p, satelliteLayer p).

(** [ls] without the layer objects of [gone]. *)
Definition without (gone ls : list Layer) : list Layer :=
  filter (fun x => negb (existsb (fun g => sameLayer g x) gone)) ls.

(** A page as it is right after loading, for sample runs. *)
Definition samplePage : Page :=
  mkPage (initialWorld alternatingDraws) 2 [tileLayer; hazardLayer]
         defaultView [] false None None false false true DisplayUnset
         DisplayUnset ContentInitial false false [] [] [].

(* ===================================================================== *)
(** * Properties *)
(* ===================================================================== *)

(** Case analysis on every test the goal branches on. *)
Ltac split_ifs :=
  repeat match goal with
         | |- context [if ?b then _ else _] => destruct b eqn:?
         end.

Ltac run := unfold value, after, bind, ret, Math_random; cbn [fst snd].

(* --------------------------------------------------------------------- *)
(** ** Resilience score *)
(* --------------------------------------------------------------------- *)

Section Scoring.

Let nHigh (hs : list Hazard) : Z :=
  Z.of_nat (List.length (filter (fun h => level_eqb (level h) high) hs)).
Let nModerate (hs : list Hazard) : Z :=
  Z.of_nat (List.length (filter (fun h => level_eqb (level h) moderate) hs)).

Lemma fold_penalty (hs : list Hazard) (start : Z) :
  fold_left (fun score h => score - spec_penalty (level h)) hs start
  = start - nHigh hs * 20 - nModerate hs * 10.
Proof.
  subst nHigh nModerate. revert start.
  induction hs as [| [n l] hs IH]; intros start; cbn [fold_left filter].
  - cbn. lia.
  - rewrite IH. destruct l; cbn [level level_eqb spec_penalty List.length]; lia.
Qed.

Lemma spec_clamp_max_min (x : Z) : spec_clamp 30 100 x = Z.max 30 (Z.min 100 x).
Proof.
  unfold spec_clamp.
  destruct (Z.ltb_spec x 30); [lia |].
  destruct (Z.ltb_spec 100 x); lia.
Qed.

Lemma scoreHazards_spec (hs : list Hazard) : scoreHazards hs = spec_score hs.
Proof.
  unfold spec_score, scoreHazards.
  rewrite fold_penalty, spec_clamp_max_min. reflexivity.
Qed.

Lemma scoreHazards_range (hs : list Hazard) : 30 <= scoreHazards hs <= 100.
Proof. unfold scoreHazards. cbv zeta. lia. Qed.

End Scoring.

Lemma calculateResilience_value (lat lon : float) (w : World) :
  value (calculateResilience lat lon) w
  = scoreHazards (value (identifyHazards lat lon) w).
Proof.
  unfold calculateResilience, value, bind, ret.
  destruct (identifyHazards lat lon w) as [hs w']. reflexivity.
Qed.

(** C1: the score computed from a hazard array is 100, less 20 for each
    high hazard and 10 for each moderate one, clamped to [30,100]; so for
    every coordinate (and every state of the random source) the score
    [calculateResilience] returns is the specified score of the hazards it
    identified and lies in [30,100]. *)
Theorem resilience_score_spec :
  (forall hs : list Hazard, scoreHazards hs = spec_score hs) /\
  (forall (lat lon : float) (w : World),
      value (calculateResilience lat lon) w
      = spec_score (value (identifyHazards lat lon) w) /\
      30 <= value (calculateResilience lat lon) w <= 100).
Proof.
  split; [exact scoreHazards_spec |].
  intros lat lon w. rewrite calculateResilience_value. split.
  - apply scoreHazards_spec.
  - apply scoreHazards_range.
Qed.

(* --------------------------------------------------------------------- *)
(** ** Hazard identification *)
(* --------------------------------------------------------------------- *)

(** The array [identifyHazards] returns, as a function of its five tests. *)
Lemma identifyHazards_value (lat lon : float) (w : World) :
  value (identifyHazards lat lon) w =
  [ mkHazard Earthquake
      (if lt (PrimFloat.abs (lat - 14.5995)%float) 2%float
          || lt (PrimFloat.abs (lat - 10.3157)%float) 2%float
       then high else moderate);
    mkHazard Typhoon
      (if gt lon 121%float && lt lon 126%float then high else moderate);
    mkHazard Flooding
      (if lt lat 15%float && gt lat 10%float then moderate else low) ]
  ++ (if isCoastal (draws w (cursor w))
      then [mkHazard Tsunami moderate] else [])
  ++ (if gt lat 16%float || (gt lat 6%float && lt lat 10%float)
      then [mkHazard Landslide moderate] else []).
Proof.
  unfold identifyHazards. run. unfold push. split_ifs; reflexivity.
Qed.

Lemma identifyHazards_after (lat lon : float) (w : World) :
  after (identifyHazards lat lon) w = after Math_random w.
Proof. reflexivity. Qed.

(** C3: for every coordinate the first three entries are Earthquake,
    Typhoon and Flooding, in that order; a Tsunami entry has level moderate;
    a Landslide entry is there exactly when [lat > 16] or [6 < lat < 10],
    and has level moderate. *)
Theorem identifyHazards_shape (lat lon : float) (w : World) :
  let hs := value (identifyHazards lat lon) w in
  map name (firstn 3 hs) = [Earthquake; Typhoon; Flooding] /\
  (forall h, In h hs -> name h = Tsunami -> level h = moderate) /\
  ((exists h, In h hs /\ name h = Landslide) <->
   (gt lat 16%float = true \/
    (gt lat 6%float = true /\ lt lat 10%float = true))) /\
  (forall h, In h hs -> name h = Landslide -> level h = moderate).
Proof.
  cbv zeta. rewrite identifyHazards_value.
  destruct (isCoastal _); destruct (gt lat 16%float) eqn:E16;
    destruct (gt lat 6%float) eqn:E6; destruct (lt lat 10%float) eqn:E10;
    cbn [orb andb app firstn map name In].
  all: repeat split.
  all: try (intros h Hin Hn;
            repeat (destruct Hin as [<- | Hin];
                    [try discriminate Hn; reflexivity |]);
            destruct Hin).
  all: try (intros _; auto; fail).
  all: try (intros _; exists (mkHazard Landslide moderate);
            split; [cbn; auto 10 | reflexivity]; fail).
  all: try (intros [h [Hin Hn]];
            repeat (destruct Hin as [<- | Hin]; [discriminate Hn |]);
            destruct Hin).
  all: try (intros [? | [? ?]]; discriminate).
Qed.

(* --------------------------------------------------------------------- *)
(** ** The Metro Manila coordinate *)
(* --------------------------------------------------------------------- *)

Lemma manila_earthquake_test :
  lt (PrimFloat.abs (manilaLat - 14.5995)%float) 2%float
  || lt (PrimFloat.abs (manilaLat - 10.3157)%float) 2%float = true.
Proof. vm_compute. reflexivity. Qed.

Lemma manila_typhoon_test :
  gt manilaLon 121%float && lt manilaLon 126%float = false.
Proof. vm_compute. reflexivity. Qed.

Lemma manila_flooding_test :
  lt manilaLat 15%float && gt manilaLat 10%float = true.
Proof. vm_compute. reflexivity. Qed.

Lemma manila_landslide_test :
  gt manilaLat 16%float || (gt manilaLat 6%float && lt manilaLat 10%float)
  = false.
Proof. vm_compute. reflexivity. Qed.

Lemma manila_hazards_value (w : World) :
  value (identifyHazards manilaLat manilaLon) w =
  [ mkHazard Earthquake high; mkHazard Typhoon moderate;
    mkHazard Flooding moderate ]
  ++ (if isCoastal (draws w (cursor w))
      then [mkHazard Tsunami moderate] else []).
Proof.
  rewrite identifyHazards_value.
  rewrite manila_earthquake_test, manila_typhoon_test,
    manila_flooding_test, manila_landslide_test.
  rewrite app_nil_r. reflexivity.
Qed.

(** C2, as stated, fails at lat=14.5995, lon=120.9842 with a draw of 0.25:
    the Typhoon level is not high (120.9842 is not above 121), and the score
    is 60, outside 20-50. *)
Lemma manila_claimed_levels_fail :
  let w := initialWorld (constantDraws 0.25%float) in
  map level (firstn 3 (value (identifyHazards manilaLat manilaLon) w))
  <> [high; high; moderate] /\
  ~ (20 <= value (calculateResilience manilaLat manilaLon) w <= 50).
Proof.
  cbv zeta. rewrite calculateResilience_value, manila_hazards_value.
  split.
  - cbn. discriminate.
  - vm_compute. intros [_ H]. apply H. reflexivity.
Qed.

(** C2, amended: at lat=14.5995, lon=120.9842 the first three hazards are
    Earthquake high, Typhoon moderate, Flooding moderate, which score
    100-20-10-10 = 60; no Landslide is reported; the score returned is 50
    when the Tsunami draw exceeds 0.5 and 60 otherwise. *)
Theorem manila_hazards_and_score (w : World) :
  let hs := value (identifyHazards manilaLat manilaLon) w in
  firstn 3 hs = [ mkHazard Earthquake high; mkHazard Typhoon moderate;
                  mkHazard Flooding moderate ] /\
  scoreHazards (firstn 3 hs) = 100 - 20 - 10 - 10 /\
  (forall h, In h hs -> name h <> Landslide) /\
  value (calculateResilience manilaLat manilaLon) w
  = (if isCoastal (draws w (cursor w)) then 50 else 60).
Proof.
  cbv zeta. rewrite calculateResilience_value, manila_hazards_value.
  destruct (isCoastal _); cbn [app firstn]; repeat split;
    try reflexivity.
  all: intros h Hin;
    repeat (destruct Hin as [<- | Hin]; [discriminate |]);
    destruct Hin.
Qed.

(* --------------------------------------------------------------------- *)
(** ** Strings *)
(* --------------------------------------------------------------------- *)

Lemma unit_eqb_eq (a b : N) : unit_eqb a b = true <-> a = b.
Proof. apply N.eqb_eq. Qed.

Lemma startsWith_iff (s p : jsstring) :
  startsWith s p = true <-> exists rest, s = p ++ rest.
Proof.
  revert s. induction p as [| a p IH]; intros s; cbn.
  - split; [intros _; exists s; reflexivity | destruct s; reflexivity].
  - destruct s as [| b s]; cbn.
    + split; [discriminate | intros [rest E]; discriminate E].
    + rewrite andb_true_iff, unit_eqb_eq, IH. split.
      * intros [-> [rest ->]]. exists rest. reflexivity.
      * intros [rest E]. injection E as -> ->. split; [reflexivity |].
        exists rest. reflexivity.
Qed.

(** [includes] is the substring test. *)
Lemma includes_iff (s p : jsstring) :
  includes s p = true <-> exists front rest, s = front ++ p ++ rest.
Proof.
  induction s as [| c s IH]; cbn [includes];
    rewrite orb_true_iff, startsWith_iff.
  - split.
    + intros [[rest E] | E]; [| discriminate E].
      exists [], rest. exact E.
    + intros [front [rest E]]. left. destruct front as [| x front].
      * exists rest. exact E.
      * discriminate E.
  - rewrite IH. split.
    + intros [[rest E] | [front [rest E]]].
      * exists [], rest. exact E.
      * exists (c :: front), rest. rewrite E. reflexivity.
    + intros [front [rest E]]. destruct front as [| x front].
      * left. exists rest. exact E.
      * right. injection E as _ E. exists front, rest. exact E.
Qed.

Lemma trimStart_whitespace (s : jsstring) :
  forallb isWhiteSpace s = true -> trimStart s = [].
Proof.
  induction s as [| c s IH]; cbn; [reflexivity |].
  intros H. apply andb_true_iff in H as [Hc Hs].
  rewrite Hc. apply IH, Hs.
Qed.

Lemma trim_whitespace (s : jsstring) :
  forallb isWhiteSpace s = true -> trim s = [].
Proof.
  intros H. unfold trim. rewrite (trimStart_whitespace s H). reflexivity.
Qed.

Lemma toLowerCase_empty `{Runtime} : toLowerCase [] = [].
Proof. apply (toLowerCase_ascii []). reflexivity. Qed.

(* --------------------------------------------------------------------- *)
(** ** Population estimate *)
(* --------------------------------------------------------------------- *)

(** A name whose lower-cased form has a substring is not empty. *)
Lemma includes_lower_nonempty `{Runtime} (s p : jsstring) :
  p <> [] -> includes (toLowerCase s) p = true -> falsy s = false.
Proof.
  intros Hp Hin. destruct s as [| c s]; [| reflexivity].
  rewrite toLowerCase_empty in Hin. destruct p; [congruence | discriminate Hin].
Qed.

Lemma estimatePopulation_manila `{Runtime} (placeName : jsstring) (w : World) :
  includes (toLowerCase placeName) (lit "metro manila")
  || includes (toLowerCase placeName) (lit "manila") = true ->
  estimatePopulation (Some placeName) w = (Some (lit "~13.5M"), w).
Proof.
  intros Hin. unfold estimatePopulation.
  assert (Hne : falsy placeName = false).
  { apply orb_true_iff in Hin as [Hin | Hin];
      eapply includes_lower_nonempty; try exact Hin; discriminate. }
  rewrite Hne, Hin. reflexivity.
Qed.

(** [estimatePopulation] leaves everything but the count of draws taken
    alone, and takes at most one draw. *)
Lemma estimatePopulation_after `{Runtime} (placeName : option jsstring)
      (w : World) :
  after (estimatePopulation placeName) w = w \/
  after (estimatePopulation placeName) w = after Math_random w.
Proof.
  unfold estimatePopulation. destruct placeName as [s |]; [| left; reflexivity].
  split_ifs; (left; reflexivity) || (right; reflexivity).
Qed.

(** In an ASCII-only name, a run of code units that equals [p] up to the
    case of its letters makes the lower-cased name include [p]. *)
Lemma ascii_occurrence_lowered `{Runtime} (front run rest p : jsstring) :
  forallb isAscii (front ++ run ++ rest) = true ->
  map asciiLower run = p ->
  includes (toLowerCase (front ++ run ++ rest)) p = true.
Proof.
  intros Hascii <-. rewrite (toLowerCase_ascii _ Hascii), !map_app.
  apply includes_iff. eauto.
Qed.

Lemma ascii_manila_population `{Runtime} (front run rest : jsstring)
      (w : World) :
  forallb isAscii (front ++ run ++ rest) = true ->
  map asciiLower run = lit "metro manila" ->
  estimatePopulation (Some (front ++ run ++ rest)) w
  = (Some (lit "~13.5M"), w).
Proof.
  intros Hascii Hrun. apply estimatePopulation_manila.
  rewrite (ascii_occurrence_lowered front run rest _ Hascii Hrun).
  reflexivity.
Qed.

(** C4: a place name whose lower-cased form contains "metro manila" gets
    the bucket "~13.5M", whatever the state of the program, and no random
    draw is taken: the state is returned as it was. *)
Theorem metro_manila_population `{Runtime} (placeName : jsstring) (w : World) :
  includes (toLowerCase placeName) (lit "metro manila") = true ->
  estimatePopulation (Some placeName) w = (Some (lit "~13.5M"), w) /\
  cursor (after (estimatePopulation (Some placeName)) w) = cursor w.
Proof.
  intros Hin.
  assert (E : estimatePopulation (Some placeName) w
              = (Some (lit "~13.5M"), w)).
  { apply estimatePopulation_manila. rewrite Hin. reflexivity. }
  split; [exact E |]. unfold after. rewrite E. reflexivity.
Qed.

Lemma metro_manila_population_witness :
  let placeName := lit "Metro Manila, Philippines" in
  let w := initialWorld (constantDraws 0.25%float) in
  includes (toLowerCase placeName) (lit "metro manila") = true /\
  estimatePopulation (Some placeName) w = (Some (lit "~13.5M"), w) /\
  cursor (after (estimatePopulation (Some placeName)) w) = cursor w.
Proof.
  cbv zeta. split; [reflexivity |].
  apply (@metro_manila_population asciiRuntime). reflexivity.
Defined.

(** C9: the bucket "~13.5M" is returned, without a random draw, for every
    place name whose lower-cased form contains "manila"; "Manila Bay", which
    does not contain "metro manila", is such a name. *)
Theorem manila_substring_population `{Runtime} :
  (forall (placeName : jsstring) (w : World),
      includes (toLowerCase placeName) (lit "manila") = true ->
      estimatePopulation (Some placeName) w = (Some (lit "~13.5M"), w)) /\
  includes (toLowerCase (lit "Manila Bay")) (lit "metro manila") = false /\
  (forall w : World,
      estimatePopulation (Some (lit "Manila Bay")) w
      = (Some (lit "~13.5M"), w)).
Proof.
  assert (G : forall (placeName : jsstring) (w : World),
             includes (toLowerCase placeName) (lit "manila") = true ->
             estimatePopulation (Some placeName) w
             = (Some (lit "~13.5M"), w)).
  { intros placeName w Hin. apply estimatePopulation_manila.
    rewrite Hin. apply orb_true_r. }
  assert (E : toLowerCase (lit "Manila Bay") = lit "manila bay").
  { rewrite toLowerCase_ascii; reflexivity. }
  split; [exact G |]. split.
  - rewrite E. reflexivity.
  - intros w. apply G. rewrite E. reflexivity.
Qed.

Lemma manila_substring_population_witness :
  let placeName := lit "Port of Manila" in
  let w := initialWorld (constantDraws 0.75%float) in
  includes (toLowerCase placeName) (lit "manila") = true /\
  estimatePopulation (Some placeName) w = (Some (lit "~13.5M"), w).
Proof.
  cbv zeta. split; [reflexivity |].
  apply (proj1 (@manila_substring_population asciiRuntime)). reflexivity.
Defined.

(* --------------------------------------------------------------------- *)
(** ** Simulated assistant *)
(* --------------------------------------------------------------------- *)

(** The first code unit of the reply tells the population branch from the
    hazard branch: "Based on ..." or "To provide ..." against
    "The primary ..." or "Please select ...". *)
Lemma population_hazard_replies_differ `{Runtime} (w : World) :
  value populationReply w <> value hazardReply w.
Proof.
  unfold populationReply, hazardReply, getCurrentLocation. run.
  destruct (currentLocation w) as [loc |].
  - destruct (estimatePopulation (placeName loc) w) as [population w1].
    destruct (identifyHazards (lat loc) (lon loc) w) as [hazards w2].
    cbn [fst]. intros E. apply (f_equal (@hd_error N)) in E.
    discriminate E.
  - cbn [fst]. intros E. apply (f_equal (@hd_error N)) in E.
    discriminate E.
Qed.

(** C5: a message whose lower-cased form contains a population keyword and
    a hazard keyword is answered by the population branch, which is not
    the reply the hazard branch would give in the same state. *)
Theorem population_before_hazard `{Runtime} (userMessage : jsstring)
        (w : World) :
  isPopulationQuery (toLowerCase userMessage) = true ->
  isHazardQuery (toLowerCase userMessage) = true ->
  generateAIResponse userMessage w
  = (noteResponderCall userMessage ;;; populationReply) w /\
  value (generateAIResponse userMessage) w
  <> value (noteResponderCall userMessage ;;; hazardReply) w.
Proof.
  intros Hpop _.
  assert (E : generateAIResponse userMessage w
              = (noteResponderCall userMessage ;;; populationReply) w).
  { unfold generateAIResponse, bind. cbn. rewrite Hpop. reflexivity. }
  split; [exact E |].
  unfold value at 1. rewrite E.
  unfold bind, noteResponderCall. cbn [fst snd].
  apply (population_hazard_replies_differ
           (mkWorld (draws w) (cursor w) (currentLocation w) (chatMessages w)
                    (chatInput w) (modalChatInput w) (chatPanel w)
                    (modalChatPanel w) (push (responderCalls w) userMessage))).
Qed.

Lemma population_before_hazard_witness :
  let userMessage := lit "Is it SAFE for the people living here?" in
  let w := initialWorld (constantDraws 0.25%float) in
  isPopulationQuery (toLowerCase userMessage) = true /\
  isHazardQuery (toLowerCase userMessage) = true /\
  generateAIResponse userMessage w
  = (noteResponderCall userMessage ;;; populationReply) w /\
  value (generateAIResponse userMessage) w
  <> value (noteResponderCall userMessage ;;; hazardReply) w.
Proof.
  cbv zeta. split; [reflexivity |]. split; [reflexivity |].
  apply (@population_before_hazard asciiRuntime); reflexivity.
Defined.

(* --------------------------------------------------------------------- *)
(** ** Chat *)
(* --------------------------------------------------------------------- *)

Lemma addChatMessage_chatMessages (type content : jsstring) (isModal : bool)
      (w : World) :
  chatMessages (after (addChatMessage type content isModal) w)
  = chatMessages w ++ [mkEntry type content].
Proof. reflexivity. Qed.

(** C6: when the input holds nothing but white space (or nothing at all),
    [sendChatMessage] returns with the whole state as it was: no entry is
    added to [chatMessages] and [generateAIResponse] is not called. *)
Theorem blank_input_ignored `{Runtime} (isModal : bool) (w : World) :
  forallb isWhiteSpace (if isModal then modalChatInput w else chatInput w)
  = true ->
  sendChatMessage isModal w = (tt, w) /\
  chatMessages (after (sendChatMessage isModal) w) = chatMessages w /\
  responderCalls (after (sendChatMessage isModal) w) = responderCalls w.
Proof.
  intros Hws.
  assert (E : sendChatMessage isModal w = (tt, w)).
  { unfold sendChatMessage, bind, getInputValue. cbv beta iota zeta.
    destruct isModal; rewrite (trim_whitespace _ Hws); reflexivity. }
  unfold after. rewrite E. repeat split.
Qed.

Lemma blank_input_ignored_witness :
  forallb isWhiteSpace (chatInput blankInputWorld) = true /\
  sendChatMessage false blankInputWorld = (tt, blankInputWorld) /\
  chatMessages (after (sendChatMessage false) blankInputWorld)
  = chatMessages blankInputWorld /\
  responderCalls (after (sendChatMessage false) blankInputWorld)
  = responderCalls blankInputWorld.
Proof.
  split; [reflexivity |].
  apply (@blank_input_ignored asciiRuntime false blankInputWorld).
  reflexivity.
Defined.

(** C7: after appending A and then B the array is the old array followed
    by A and B, in that order (so [A; B] when it was empty), and every
    entry that was stored before is still there, at its index, as it
    was. *)
Theorem append_keeps_order (w : World) (typeA contentA : jsstring)
        (modalA : bool) (typeB contentB : jsstring) (modalB : bool) :
  let w' := after (addChatMessage typeA contentA modalA ;;;
                   addChatMessage typeB contentB modalB) w in
  chatMessages w'
  = chatMessages w ++ [mkEntry typeA contentA; mkEntry typeB contentB] /\
  (chatMessages w = [] ->
   chatMessages w' = [mkEntry typeA contentA; mkEntry typeB contentB]) /\
  (forall i e, nth_error (chatMessages w) i = Some e ->
               nth_error (chatMessages w') i = Some e).
Proof.
  cbv zeta.
  assert (E : chatMessages
                (after (addChatMessage typeA contentA modalA ;;;
                        addChatMessage typeB contentB modalB) w)
              = chatMessages w
                ++ [mkEntry typeA contentA; mkEntry typeB contentB]).
  { cbn. unfold push. rewrite <- app_assoc. reflexivity. }
  rewrite E. split; [reflexivity |]. split.
  - intros ->. reflexivity.
  - intros i e Hi. rewrite nth_error_app1; [exact Hi |].
    apply nth_error_Some. rewrite Hi. discriminate.
Qed.

Lemma append_keeps_order_witness :
  let w := initialWorld (constantDraws 0.25%float) in
  let w' := after (addChatMessage (lit "user") (lit "hello") false ;;;
                   addChatMessage (lit "ai") defaultReply false) w in
  chatMessages w = [] /\
  chatMessages w' = [mkEntry (lit "user") (lit "hello");
                     mkEntry (lit "ai") defaultReply].
Proof.
  cbv zeta. split; [reflexivity |].
  apply (append_keeps_order (initialWorld (constantDraws 0.25%float))).
  reflexivity.
Defined.

(** What the assistant does to the state stays clear of [chatMessages]. *)
Lemma estimatePopulation_chatMessages `{Runtime} (placeName : option jsstring)
      (w : World) :
  chatMessages (after (estimatePopulation placeName) w) = chatMessages w.
Proof.
  destruct (estimatePopulation_after placeName w) as [-> | ->]; reflexivity.
Qed.

Lemma populationReply_chatMessages `{Runtime} (w : World) :
  chatMessages (after populationReply w) = chatMessages w.
Proof.
  unfold populationReply, getCurrentLocation, after, bind.
  destruct (currentLocation w) as [loc |]; [| reflexivity].
  pose proof (estimatePopulation_chatMessages (placeName loc) w) as E.
  unfold after in E.
  destruct (estimatePopulation (placeName loc) w) as [population w1].
  exact E.
Qed.

Lemma hazardReply_chatMessages (w : World) :
  chatMessages (after hazardReply w) = chatMessages w.
Proof.
  unfold hazardReply, getCurrentLocation, after, bind.
  destruct (currentLocation w) as [loc |]; reflexivity.
Qed.

Lemma solutionReply_chatMessages (w : World) :
  chatMessages (after solutionReply w) = chatMessages w.
Proof.
  unfold solutionReply, getCurrentLocation, after, bind.
  destruct (currentLocation w) as [loc |]; reflexivity.
Qed.

Lemma generateAIResponse_chatMessages `{Runtime} (userMessage : jsstring)
      (w : World) :
  chatMessages (after (generateAIResponse userMessage) w) = chatMessages w.
Proof.
  unfold generateAIResponse, after, bind.
  destruct (noteResponderCall userMessage w) as [u w0] eqn:E0.
  assert (C0 : chatMessages w0 = chatMessages w).
  { unfold noteResponderCall in E0. injection E0 as _ <-. reflexivity. }
  cbv zeta. rewrite <- C0. split_ifs.
  - apply populationReply_chatMessages.
  - apply hazardReply_chatMessages.
  - apply solutionReply_chatMessages.
  - reflexivity.
  - reflexivity.
  - reflexivity.
  - reflexivity.
Qed.

(** What one call of [sendChatMessage] appends: nothing, or the user's
    trimmed message followed by the reply. *)
Lemma sendChatMessage_chatMessages `{Runtime} (isModal : bool) (w : World) :
  let message := trim (if isModal then modalChatInput w else chatInput w) in
  chatMessages (after (sendChatMessage isModal) w)
  = chatMessages w ++
    (if falsy message then []
     else [ mkEntry (lit "user") message;
            mkEntry (lit "ai")
              (value (generateAIResponse message)
                 (after (addChatMessage (lit "user") message isModal ;;;
                         setInputValue isModal []) w)) ]).
Proof.
  cbv zeta. unfold sendChatMessage, after at 1, bind at 1, getInputValue.
  cbv beta iota zeta.
  set (message := trim (if isModal then modalChatInput w else chatInput w)).
  destruct (falsy message); [cbn; rewrite app_nil_r; reflexivity |].
  set (w2 := after (addChatMessage (lit "user") message isModal ;;;
                    setInputValue isModal []) w).
  assert (C2 : chatMessages w2
               = chatMessages w ++ [mkEntry (lit "user") message])
    by reflexivity.
  change (chatMessages
            (snd (let (aiResponse, w3) := generateAIResponse message w2 in
                  addChatMessage (lit "ai") aiResponse isModal w3))
          = chatMessages w ++
            [ mkEntry (lit "user") message;
              mkEntry (lit "ai") (value (generateAIResponse message) w2) ]).
  pose proof (generateAIResponse_chatMessages message w2) as C3.
  unfold after in C3. unfold value.
  destruct (generateAIResponse message w2) as [aiResponse w3].
  cbn [fst snd] in *.
  change (chatMessages w3 ++ [mkEntry (lit "ai") aiResponse]
          = chatMessages w ++
            [mkEntry (lit "user") message; mkEntry (lit "ai") aiResponse]).
  rewrite C3, C2, <- app_assoc. reflexivity.
Qed.

Lemma hasRole_user (content : jsstring) :
  hasRole (mkEntry (lit "user") content).
Proof. exists user. reflexivity. Qed.

Lemma hasRole_ai (content : jsstring) : hasRole (mkEntry (lit "ai") content).
Proof. exists assistant. reflexivity. Qed.

Lemma runEvent_appends `{Runtime} (ev : ChatEvent) (w : World) :
  exists new : list ChatEntry,
    chatMessages (after (runEvent ev) w) = chatMessages w ++ new /\
    Forall hasRole new.
Proof.
  destruct ev as [isModal text | lat lon placeName | isModal | isModal];
    cbn [runEvent].
  - exists []. split; [| constructor].
    destruct isModal; cbn; now rewrite app_nil_r.
  - exists []. split; [cbn; now rewrite app_nil_r | constructor].
  - eexists. split; [apply sendChatMessage_chatMessages |].
    cbv zeta. destruct (falsy _); [constructor |].
    repeat constructor; [apply hasRole_user | apply hasRole_ai].
  - exists [mkEntry (lit "ai") imageAnalysis]. split; [reflexivity |].
    repeat constructor. apply hasRole_ai.
Qed.

(** C8: every entry a handler appends to [chatMessages] carries one of the
    two roles (tag ['user'] or tag ['ai']) and a string as content; hence
    so does every entry of the array at any point of a session. *)
Theorem chat_entries_have_roles `{Runtime} :
  (forall (ev : ChatEvent) (w : World),
      exists new : list ChatEntry,
        chatMessages (after (runEvent ev) w) = chatMessages w ++ new /\
        Forall hasRole new) /\
  (forall (evs : list ChatEvent) (draws : nat -> float),
      Forall hasRole (chatMessages (runEvents evs (initialWorld draws)))).
Proof.
  split; [exact runEvent_appends |].
  intros evs draws.
  assert (Inv : forall w, Forall hasRole (chatMessages w) ->
                          Forall hasRole (chatMessages (runEvents evs w))).
  { induction evs as [| ev evs IH]; intros w Hw; cbn [runEvents].
    - exact Hw.
    - apply IH. destruct (runEvent_appends ev w) as [new [-> Hnew]].
      apply Forall_app. split; assumption. }
  apply Inv. constructor.
Qed.

(* --------------------------------------------------------------------- *)
(** ** Location analysis *)
(* --------------------------------------------------------------------- *)

Lemma estimatePopulation_draws `{Runtime} (placeName : option jsstring)
      (w : World) :
  draws (after (estimatePopulation placeName) w) = draws w.
Proof.
  destruct (estimatePopulation_after placeName w) as [-> | ->]; reflexivity.
Qed.

(** The two fields of the report come from two calls of
    [identifyHazards], each with a draw of its own. *)
Lemma analyzeLocation_fields `{Runtime} (lat lon : float)
      (placeName : jsstring) (w : World) :
  let r := value (analyzeLocation lat lon placeName) w in
  let w1 := after (estimatePopulation (Some placeName)) w in
  Report.hazards r = value (identifyHazards lat lon) w1 /\
  Report.resilience r
  = value (calculateResilience lat lon) (after (identifyHazards lat lon) w1).
Proof.
  cbv zeta. unfold analyzeLocation, value, after, bind, ret.
  destruct (estimatePopulation (Some placeName) w) as [population w1].
  cbn [snd].
  destruct (identifyHazards lat lon w1) as [hazards w2].
  cbn [fst snd].
  destruct (calculateResilience lat lon w2) as [resilience w3].
  split; reflexivity.
Qed.

(** With the three fixed hazards and the Landslide test the same, two
    hazard arrays score differently exactly when their Tsunami gates
    differ: the clamp at 30 is never passed. *)
Lemma score_differs_iff_gate (eq ty fl : Level) (t1 t2 ls : bool) :
  eq <> low -> ty <> low -> fl <> high ->
  let hazardsOf (t : bool) :=
    [mkHazard Earthquake eq; mkHazard Typhoon ty; mkHazard Flooding fl]
    ++ (if t then [mkHazard Tsunami moderate] else [])
    ++ (if ls then [mkHazard Landslide moderate] else []) in
  scoreHazards (hazardsOf t2) <> scoreHazards (hazardsOf t1) <-> t1 <> t2.
Proof.
  intros Heq Hty Hfl. cbv zeta.
  destruct eq; try congruence; destruct ty; try congruence;
    destruct fl; try congruence; destruct t1, t2, ls;
    vm_compute; split; intros Hne; try discriminate;
    try (exfalso; apply Hne; reflexivity); intros E; discriminate E.
Qed.

(** C10: [analyzeLocation] reports the hazards of one call of
    [identifyHazards] and the score of another one; the score reported is
    not the score of the hazards reported exactly when the Tsunami gates of
    the two calls differ, and there are a coordinate and a random source
    for which they do. *)
Theorem report_score_from_second_call `{Runtime} :
  (forall (lat lon : float) (placeName : jsstring) (w : World),
      let r := value (analyzeLocation lat lon placeName) w in
      let w1 := after (estimatePopulation (Some placeName)) w in
      Report.hazards r = value (identifyHazards lat lon) w1 /\
      Report.resilience r
      = value (calculateResilience lat lon)
              (after (identifyHazards lat lon) w1) /\
      (Report.resilience r <> scoreHazards (Report.hazards r) <->
       isCoastal (draws w1 (cursor w1))
       <> isCoastal (draws w1 (S (cursor w1))))) /\
  (exists (lat lon : float) (placeName : jsstring) (w : World),
      let r := value (analyzeLocation lat lon placeName) w in
      Report.resilience r <> scoreHazards (Report.hazards r)).
Proof.
  assert (G : forall (lat lon : float) (placeName : jsstring) (w : World),
             let r := value (analyzeLocation lat lon placeName) w in
             let w1 := after (estimatePopulation (Some placeName)) w in
             Report.hazards r = value (identifyHazards lat lon) w1 /\
             Report.resilience r
             = value (calculateResilience lat lon)
                     (after (identifyHazards lat lon) w1) /\
             (Report.resilience r <> scoreHazards (Report.hazards r) <->
              isCoastal (draws w1 (cursor w1))
              <> isCoastal (draws w1 (S (cursor w1))))).
  { intros lat lon placeName w. cbv zeta.
    destruct (analyzeLocation_fields lat lon placeName w) as [Eh Er].
    cbv zeta in Eh, Er. split; [exact Eh |]. split; [exact Er |].
    rewrite Er, Eh, calculateResilience_value, !identifyHazards_value.
    rewrite identifyHazards_after.
    set (w1 := after (estimatePopulation (Some placeName)) w).
    change (draws (after Math_random w1) (cursor (after Math_random w1)))
      with (draws w1 (S (cursor w1))).
    apply (score_differs_iff_gate
             (if lt (PrimFloat.abs (lat - 14.5995)%float) 2%float
                 || lt (PrimFloat.abs (lat - 10.3157)%float) 2%float
              then high else moderate)
             (if gt lon 121%float && lt lon 126%float
              then high else moderate)
             (if lt lat 15%float && gt lat 10%float then moderate else low)
             (isCoastal (draws w1 (cursor w1)))
             (isCoastal (draws w1 (S (cursor w1)))));
      split_ifs; discriminate. }
  split; [exact G |].
  exists manilaLat, manilaLon, (lit "Quiapo"),
    (initialWorld alternatingDraws).
  cbv zeta. apply G.
  rewrite estimatePopulation_draws.
  generalize (cursor (after (estimatePopulation (Some (lit "Quiapo")))
                            (initialWorld alternatingDraws))).
  intros n. cbn [draws initialWorld]. unfold alternatingDraws.
  rewrite Nat.even_succ, <- Nat.negb_even.
  destruct (Nat.even n); vm_compute; discriminate.
Qed.

(* --------------------------------------------------------------------- *)
(** ** Sample runs *)
(* --------------------------------------------------------------------- *)

Example trim_sample :
  trim (lit "  How many PEOPLE are at risk? ")
  = lit "How many PEOPLE are at risk?".
Proof. reflexivity. Qed.

Example includes_sample :
  includes (lit "san fernando, camarines sur") (lit "camarines") = true /\
  includes (lit "san fernando, camarines sur") (lit "cebu") = false.
Proof. split; reflexivity. Qed.

(** An unmatched name takes one draw: 0.75 * 4 = 3 selects the fourth
    bucket. *)
Example estimatePopulation_random_sample :
  estimatePopulation (Some (lit "Baguio")) (initialWorld alternatingDraws)
  = (Some (lit "20K-50K"), after Math_random (initialWorld alternatingDraws)).
Proof. vm_compute. reflexivity. Qed.

Example estimatePopulation_unknown_sample :
  value (estimatePopulation None) (initialWorld alternatingDraws)
  = Some (lit "Unknown") /\
  value (estimatePopulation (Some [])) (initialWorld alternatingDraws)
  = Some (lit "Unknown").
Proof. split; reflexivity. Qed.

(** North of 16 degrees but within 2 degrees of 14.5995: Earthquake high,
    Typhoon moderate, Flooding low, Tsunami (draw 0.75) and Landslide,
    scoring 100 - 20 - 3 * 10. *)
Example identifyHazards_north_sample :
  let w := initialWorld alternatingDraws in
  value (identifyHazards 16.4%float 120.6%float) w
  = [ mkHazard Earthquake high; mkHazard Typhoon moderate;
      mkHazard Flooding low; mkHazard Tsunami moderate;
      mkHazard Landslide moderate ] /\
  scoreHazards (value (identifyHazards 16.4%float 120.6%float) w) = 50.
Proof. split; vm_compute; reflexivity. Qed.

(** One exchange: the question is trimmed and stored, the input is
    cleared, the population branch answers (its keyword wins over "risk"),
    and the reply is stored after the question. *)
Example sendChatMessage_sample :
  let w' := after (sendChatMessage false) askingWorld in
  chatMessages w'
  = [ mkEntry (lit "user") (lit "How many PEOPLE are at risk?");
      mkEntry (lit "ai")
        (lit "Based on available data, the estimated population in " ++
         lit "this area is approximately Unknown. This is an estimate " ++
         lit "based on regional census data and recent demographic " ++
         lit "trends.") ] /\
  chatInput w' = [] /\
  responderCalls w' = [lit "How many PEOPLE are at risk?"] /\
  map className (chatPanel w') = [lit "user-message"; lit "ai-message"] /\
  cursor w' = 0%nat.
Proof. cbv zeta. repeat split; vm_compute; reflexivity. Qed.

(** The same coordinate, analysed once: a Tsunami is reported (draw 0.75)
    but the score was computed from a second array without one (draw
    0.25). *)
Example analyzeLocation_sample :
  let r := value (analyzeLocation manilaLat manilaLon (lit "Manila"))
                 (initialWorld alternatingDraws) in
  Report.population r = Some (lit "~13.5M") /\
  Report.hazards r
  = [ mkHazard Earthquake high; mkHazard Typhoon moderate;
      mkHazard Flooding moderate; mkHazard Tsunami moderate ] /\
  scoreHazards (Report.hazards r) = 50 /\
  Report.resilience r = 60.
Proof. cbv zeta. repeat split; vm_compute; reflexivity. Qed.

(* --------------------------------------------------------------------- *)
(** ** Order of binary64 numbers *)
(* --------------------------------------------------------------------- *)

Ltac cmp_cases :=
  repeat match goal with
         | H : context [Z.compare ?a ?b] |- _ =>
             destruct (Z.compare_spec a b); subst
         | |- context [Z.compare ?a ?b] =>
             destruct (Z.compare_spec a b); subst
         | H : context [Pos.compare_cont Eq ?a ?b] |- _ =>
             change (Pos.compare_cont Eq a b) with (Pos.compare a b) in H;
             destruct (Pos.compare_spec a b); subst
         | |- context [Pos.compare_cont Eq ?a ?b] =>
             change (Pos.compare_cont Eq a b) with (Pos.compare a b);
             destruct (Pos.compare_spec a b); subst
         end.

Ltac sf_cases x y z :=
  destruct x as [[|] | [|] | | [|] ? ?], y as [[|] | [|] | | [|] ? ?],
    z as [[|] | [|] | | [|] ? ?]; cbn;
  try discriminate; try reflexivity.

Lemma SFltb_trans (x y z : spec_float) :
  SFltb x y = true -> SFltb y z = true -> SFltb x z = true.
Proof.
  unfold SFltb. sf_cases x y z; intros H1 H2.
  all: cmp_cases; cbn in *; try discriminate; try reflexivity; try lia.
Qed.

Lemma SFleb_ltb_trans (x y z : spec_float) :
  SFleb x y = true -> SFltb y z = true -> SFltb x z = true.
Proof.
  unfold SFleb, SFltb. sf_cases x y z; intros H1 H2.
  all: cmp_cases; cbn in *; try discriminate; try reflexivity; try lia.
Qed.

Lemma SFltb_leb_trans (x y z : spec_float) :
  SFltb x y = true -> SFleb y z = true -> SFltb x z = true.
Proof.
  unfold SFleb, SFltb. sf_cases x y z; intros H1 H2.
  all: cmp_cases; cbn in *; try discriminate; try reflexivity; try lia.
Qed.

Lemma SFleb_trans (x y z : spec_float) :
  SFleb x y = true -> SFleb y z = true -> SFleb x z = true.
Proof.
  unfold SFleb. sf_cases x y z; intros H1 H2.
  all: cmp_cases; cbn in *; try discriminate; try reflexivity; try lia.
Qed.

(** Among numbers, what is not below [y] is at or above it. *)
Lemma SFltb_false_leb (x y z : spec_float) :
  SFleb z x = true -> SFleb y y = true -> SFltb x y = false ->
  SFleb y x = true.
Proof.
  unfold SFleb, SFltb. sf_cases x y z; intros H1 H2 H3.
  all: cmp_cases; cbn in *; try discriminate; try reflexivity; try lia.
Qed.

Lemma lt_trans (a b c : float) :
  lt a b = true -> lt b c = true -> lt a c = true.
Proof. unfold lt. rewrite !FloatAxioms.ltb_spec. apply SFltb_trans. Qed.

Lemma le_lt_trans (a b c : float) :
  le a b = true -> lt b c = true -> lt a c = true.
Proof.
  unfold lt, le. rewrite !FloatAxioms.ltb_spec, FloatAxioms.leb_spec.
  apply SFleb_ltb_trans.
Qed.

Lemma lt_le_trans (a b c : float) :
  lt a b = true -> le b c = true -> lt a c = true.
Proof.
  unfold lt, le. rewrite !FloatAxioms.ltb_spec, FloatAxioms.leb_spec.
  apply SFltb_leb_trans.
Qed.

Lemma le_trans (a b c : float) :
  le a b = true -> le b c = true -> le a c = true.
Proof. unfold le. rewrite !FloatAxioms.leb_spec. apply SFleb_trans. Qed.

Lemma not_lt_le (x b lo : float) :
  le lo x = true -> le b b = true -> lt x b = false -> le b x = true.
Proof.
  unfold lt, le. rewrite FloatAxioms.ltb_spec, !FloatAxioms.leb_spec.
  apply SFltb_false_leb.
Qed.

(** NaN compares false with everything and absorbs subtraction. *)
Lemma nan_spec (x : float) : is_nan x = true -> Prim2SF x = S754_nan.
Proof. intros H. unfold Prim2SF. rewrite H. reflexivity. Qed.

Lemma nan_lt (x y : float) :
  is_nan x = true -> lt x y = false /\ gt x y = false.
Proof.
  intros H. unfold lt, gt. rewrite !FloatAxioms.ltb_spec, (nan_spec x H).
  split; [reflexivity |]. unfold SFltb. destruct (Prim2SF y); reflexivity.
Qed.

Lemma nan_abs_sub (x c : float) :
  is_nan x = true -> is_nan (PrimFloat.abs (x - c)%float) = true.
Proof.
  intros H.
  assert (E : Prim2SF (PrimFloat.abs (x - c)%float) = S754_nan).
  { rewrite FloatAxioms.abs_spec, FloatAxioms.sub_spec, (nan_spec x H).
    reflexivity. }
  unfold is_nan. rewrite FloatAxioms.eqb_spec, E. reflexivity.
Qed.

(* --------------------------------------------------------------------- *)
(** ** More on hazard identification *)
(* --------------------------------------------------------------------- *)

(** The Flooding test and the Landslide test never hold together: the
    first needs [10 < lat < 15], the second [lat > 16] or [lat < 10]. *)
Lemma flooding_landslide_tests (lat : float) :
  lt lat 15%float && gt lat 10%float = true ->
  gt lat 16%float || (gt lat 6%float && lt lat 10%float) = false.
Proof.
  intros H. apply andb_true_iff in H as [H15 H10].
  apply orb_false_iff. split.
  - destruct (gt lat 16%float) eqn:H16; [| reflexivity].
    assert (F : lt 16%float 15%float = true)
      by (exact (lt_trans _ _ _ H16 H15)).
    vm_compute in F. discriminate F.
  - destruct (lt lat 10%float) eqn:H10'; [| apply andb_false_r].
    assert (F : lt 10%float 10%float = true)
      by (exact (lt_trans _ _ _ H10 H10')).
    vm_compute in F. discriminate F.
Qed.

(** X1: the array [identifyHazards] returns has three to five entries, no
    hazard name twice; Earthquake and Typhoon are never low and Flooding is
    never high. *)
Theorem identifyHazards_entries (lat lon : float) (w : World) :
  let hs := value (identifyHazards lat lon) w in
  (3 <= List.length hs <= 5)%nat /\
  NoDup (map name hs) /\
  (forall h, In h hs ->
             (name h = Earthquake \/ name h = Typhoon) -> level h <> low) /\
  (forall h, In h hs -> name h = Flooding -> level h <> high).
Proof.
  cbv zeta. rewrite identifyHazards_value.
  destruct (isCoastal _), (gt lat 16%float || _);
    cbn [app List.length map name].
  all: split; [lia |].
  all: split;
    [ repeat (constructor; [cbn; intuition discriminate |]); constructor |].
  all: split; intros h Hin Hn;
    repeat (destruct Hin as [<- | Hin];
            [cbn in *; split_ifs; intuition discriminate |]);
    destruct Hin.
Qed.

(** X2: a moderate Flooding entry and a Landslide entry never occur in the
    same array. *)
Theorem flooding_excludes_landslide (lat lon : float) (w : World) :
  let hs := value (identifyHazards lat lon) w in
  In (mkHazard Flooding moderate) hs ->
  forall h, In h hs -> name h <> Landslide.
Proof.
  cbv zeta. rewrite identifyHazards_value.
  destruct (lt lat 15%float && gt lat 10%float) eqn:Hfl.
  - rewrite (flooding_landslide_tests lat Hfl).
    intros _ h Hin. destruct (isCoastal _); cbn in Hin;
      repeat (destruct Hin as [<- | Hin]; [discriminate |]); destruct Hin.
  - intros Hin. exfalso. destruct (isCoastal _), (gt lat 16%float || _);
      cbn in Hin;
      repeat (destruct Hin as [Hin | Hin]; [discriminate Hin |]);
      destruct Hin.
Qed.

Lemma flooding_excludes_landslide_witness :
  let hs := value (identifyHazards manilaLat manilaLon)
                  (initialWorld alternatingDraws) in
  In (mkHazard Flooding moderate) hs /\
  (forall h, In h hs -> name h <> Landslide).
Proof.
  cbv zeta. split.
  - vm_compute. auto.
  - apply (flooding_excludes_landslide manilaLat manilaLon).
    vm_compute. auto.
Defined.

(** X3: the score [calculateResilience] returns is one of 40, 50, 60, 70
    and 80, and it is the unclamped score: neither bound of the clamp to
    [30,100] is ever reached. *)
Theorem calculateResilience_values (lat lon : float) (w : World) :
  let hs := value (identifyHazards lat lon) w in
  let score := value (calculateResilience lat lon) w in
  In score [40; 50; 60; 70; 80] /\ score = rawScore hs.
Proof.
  cbv zeta. rewrite calculateResilience_value, identifyHazards_value.
  destruct (lt lat 15%float && gt lat 10%float) eqn:Hfl.
  - rewrite (flooding_landslide_tests lat Hfl).
    destruct (isCoastal _); split_ifs; vm_compute; intuition congruence.
  - destruct (isCoastal _); split_ifs; vm_compute; intuition congruence.
Qed.

(** X4: when both coordinates are NaN (no test on them holds) the array is
    Earthquake moderate, Typhoon moderate, Flooding low, plus the Tsunami
    entry if drawn, and the score is 70 with it and 80 without. *)
Theorem identifyHazards_nan (lat lon : float) (w : World) :
  is_nan lat = true -> is_nan lon = true ->
  value (identifyHazards lat lon) w
  = [ mkHazard Earthquake moderate; mkHazard Typhoon moderate;
      mkHazard Flooding low ]
    ++ (if isCoastal (draws w (cursor w))
        then [mkHazard Tsunami moderate] else []) /\
  value (calculateResilience lat lon) w
  = (if isCoastal (draws w (cursor w)) then 70 else 80).
Proof.
  intros Hlat Hlon.
  assert (E : value (identifyHazards lat lon) w
              = [ mkHazard Earthquake moderate; mkHazard Typhoon moderate;
                  mkHazard Flooding low ]
                ++ (if isCoastal (draws w (cursor w))
                    then [mkHazard Tsunami moderate] else [])).
  { rewrite identifyHazards_value.
    destruct (nan_lt _ 2%float (nan_abs_sub lat 14.5995%float Hlat))
      as [-> _].
    destruct (nan_lt _ 2%float (nan_abs_sub lat 10.3157%float Hlat))
      as [-> _].
    destruct (nan_lt lon 126%float Hlon) as [-> _].
    destruct (nan_lt lat 15%float Hlat) as [-> _].
    destruct (nan_lt lat 16%float Hlat) as [_ ->].
    destruct (nan_lt lat 6%float Hlat) as [_ ->].
    rewrite andb_false_r. cbn [orb andb]. rewrite app_nil_r. reflexivity. }
  split; [exact E |].
  rewrite calculateResilience_value, E.
  destruct (isCoastal _); reflexivity.
Qed.

Lemma identifyHazards_nan_witness :
  let w := initialWorld alternatingDraws in
  is_nan nan = true /\
  value (identifyHazards nan nan) w
  = [ mkHazard Earthquake moderate; mkHazard Typhoon moderate;
      mkHazard Flooding low; mkHazard Tsunami moderate ] /\
  value (calculateResilience nan nan) w = 70.
Proof.
  cbv zeta. split; [reflexivity |].
  exact (identifyHazards_nan nan nan (initialWorld alternatingDraws)
           eq_refl eq_refl).
Defined.

(* --------------------------------------------------------------------- *)
(** ** More on the population estimate *)
(* --------------------------------------------------------------------- *)

Lemma atFloor_In {A} (xs : list A) (lo x : float) (a : A) :
  atFloor xs lo x = Some a -> In a xs.
Proof.
  revert lo. induction xs as [| b xs IH]; intros lo; cbn [atFloor].
  - discriminate.
  - destruct (le lo x && lt x (lo + 1)%float).
    + intros E. injection E as ->. left. reflexivity.
    + intros E. right. exact (IH _ E).
Qed.

(** The lookup in [estimates], test by test. *)
Lemma atFloor_estimates (x : float) :
  atFloor estimates 0%float x =
  if le 0%float x && lt x 1%float then Some (lit "50K-100K")
  else if le 1%float x && lt x 2%float then Some (lit "100K-250K")
  else if le 2%float x && lt x 3%float then Some (lit "250K-500K")
  else if le 3%float x && lt x 4%float then Some (lit "20K-50K")
  else None.
Proof. reflexivity. Qed.

Lemma atFloor_estimates_defined (x : float) :
  le 0%float x && lt x 4%float = true ->
  exists b, In b estimates /\ atFloor estimates 0%float x = Some b.
Proof.
  intros H. apply andb_true_iff in H as [H0 H4].
  rewrite atFloor_estimates, H0, H4. cbn [andb].
  destruct (lt x 1%float) eqn:L1;
    [eexists; split; [| reflexivity]; cbn; auto |].
  rewrite (not_lt_le x 1%float 0%float H0 eq_refl L1). cbn [andb].
  destruct (lt x 2%float) eqn:L2;
    [eexists; split; [| reflexivity]; cbn; auto |].
  rewrite (not_lt_le x 2%float 0%float H0 eq_refl L2). cbn [andb].
  destruct (lt x 3%float) eqn:L3;
    [eexists; split; [| reflexivity]; cbn; auto |].
  rewrite (not_lt_le x 3%float 0%float H0 eq_refl L3). cbn [andb].
  eexists; split; [| reflexivity]; cbn; auto.
Qed.

Lemma atFloor_estimates_undefined (x : float) :
  le 0%float x && lt x 4%float = false ->
  atFloor estimates 0%float x = None.
Proof.
  intros H. rewrite atFloor_estimates.
  assert (T : forall k k', le 0%float k = true -> le k' 4%float = true ->
                           le k x && lt x k' = false).
  { intros k k' Hk Hk'.
    destruct (le k x) eqn:A; destruct (lt x k') eqn:B; try reflexivity.
    rewrite (le_trans _ _ _ Hk A), (lt_le_trans _ _ _ B Hk') in H.
    discriminate H. }
  rewrite (T 0%float 1%float eq_refl eq_refl),
    (T 1%float 2%float eq_refl eq_refl),
    (T 2%float 3%float eq_refl eq_refl),
    (T 3%float 4%float eq_refl eq_refl).
  reflexivity.
Qed.

Lemma unmatched_name `{Runtime} (placeName : jsstring) (w : World) :
  falsy placeName = false ->
  existsb (includes (toLowerCase placeName)) cityKeywords = false ->
  estimatePopulation (Some placeName) w
  = (atFloor estimates 0%float (draws w (cursor w) * estimatesLength)%float,
     advance 1 w).
Proof.
  intros Hne Hno. unfold estimatePopulation. rewrite Hne.
  cbn [existsb cityKeywords] in Hno.
  repeat (apply orb_false_iff in Hno as [? Hno]).
  repeat match goal with
         | E : includes _ _ = false |- _ => rewrite E; clear E
         end.
  reflexivity.
Qed.

(** X5: for a non-empty name with none of the six city substrings, one
    draw [r] is taken and nothing else changes; the result is one of the
    four range buckets when [0 <= r * 4 < 4] and [undefined] otherwise. *)
Theorem random_population_bucket `{Runtime} (placeName : jsstring)
        (w : World) :
  falsy placeName = false ->
  existsb (includes (toLowerCase placeName)) cityKeywords = false ->
  let x := (draws w (cursor w) * estimatesLength)%float in
  after (estimatePopulation (Some placeName)) w = advance 1 w /\
  (le 0%float x && lt x 4%float = true ->
   exists b, In b estimates /\
             value (estimatePopulation (Some placeName)) w = Some b) /\
  (le 0%float x && lt x 4%float = false ->
   value (estimatePopulation (Some placeName)) w = None).
Proof.
  intros Hne Hno. cbv zeta. unfold value, after.
  rewrite (unmatched_name placeName w Hne Hno). cbn [fst snd].
  split; [reflexivity |]. split.
  - apply atFloor_estimates_defined.
  - apply atFloor_estimates_undefined.
Qed.

Lemma random_population_bucket_witness :
  let placeName := lit "Baguio" in
  let w := initialWorld alternatingDraws in
  falsy placeName = false /\
  existsb (includes (toLowerCase placeName)) cityKeywords = false /\
  le 0%float (0.75 * 4)%float && lt (0.75 * 4)%float 4%float = true /\
  after (estimatePopulation (Some placeName)) w = advance 1 w /\
  exists b, In b estimates /\
            value (estimatePopulation (Some placeName)) w = Some b.
Proof.
  cbv zeta. split; [reflexivity |]. split; [reflexivity |].
  split; [reflexivity |].
  destruct (@random_population_bucket asciiRuntime (lit "Baguio")
              (initialWorld alternatingDraws) eq_refl eq_refl)
    as [Hafter [Hdef _]].
  split; [exact Hafter |]. apply Hdef. reflexivity.
Defined.

(** A lower-cased name that includes "metro manila" includes "manila": the
    first of the two tests of the first branch cannot be the only one to
    hold. *)
Lemma includes_metro_manila (s : jsstring) :
  includes s (lit "metro manila") = true -> includes s (lit "manila") = true.
Proof.
  rewrite !includes_iff. intros [front [rest ->]].
  exists (front ++ lit "metro "), rest.
  rewrite <- app_assoc. reflexivity.
Qed.

Lemma bucket_not_fixed (b : jsstring) :
  In b estimates -> b <> lit "~13.5M" /\ b <> lit "Unknown".
Proof.
  intros Hin. cbn in Hin.
  repeat (destruct Hin as [<- | Hin]; [split; discriminate |]).
  destruct Hin.
Qed.

(** X6: [estimatePopulation] returns "~13.5M" exactly for the names whose
    lower-cased form includes "manila", whatever the random draws. *)
Theorem manila_bucket_iff `{Runtime} (placeName : jsstring) (w : World) :
  value (estimatePopulation (Some placeName)) w = Some (lit "~13.5M")
  <-> includes (toLowerCase placeName) (lit "manila") = true.
Proof.
  split.
  - unfold value, estimatePopulation.
    destruct (falsy placeName); [discriminate |].
    destruct (includes (toLowerCase placeName) (lit "manila")) eqn:Em;
      [reflexivity |].
    destruct (includes (toLowerCase placeName) (lit "metro manila")) eqn:Emm.
    { apply includes_metro_manila in Emm. congruence. }
    cbn [orb]. split_ifs; try discriminate.
    unfold bind, Math_random, ret. cbn [fst]. intros E.
    apply atFloor_In, bucket_not_fixed in E. destruct E as [E _].
    congruence.
  - intros Hin. unfold value.
    rewrite estimatePopulation_manila; [reflexivity |].
    rewrite Hin. apply orb_true_r.
Qed.

(** X7: [estimatePopulation] returns "Unknown" exactly when the place name
    is [null] (or [undefined]) or the empty string. *)
Theorem unknown_population_iff `{Runtime} (placeName : option jsstring)
        (w : World) :
  value (estimatePopulation placeName) w = Some (lit "Unknown")
  <-> falsyOpt placeName = true.
Proof.
  unfold value, estimatePopulation.
  destruct placeName as [s |]; cbn [falsyOpt]; [| split; reflexivity].
  destruct (falsy s); [split; reflexivity |].
  split; [| discriminate].
  split_ifs; try discriminate.
  unfold bind, Math_random, ret. cbn [fst]. intros E.
  apply atFloor_In, bucket_not_fixed in E. destruct E as [_ E].
  congruence.
Qed.

(* --------------------------------------------------------------------- *)
(** ** What location analysis changes *)
(* --------------------------------------------------------------------- *)

Lemma estimatePopulation_advance `{Runtime} (placeName : option jsstring)
      (w : World) :
  after (estimatePopulation placeName) w = w \/
  after (estimatePopulation placeName) w = advance 1 w.
Proof. apply estimatePopulation_after. Qed.

Lemma analysis_only_draws_aux `{Runtime} (lat lon : float)
      (placeName : jsstring) (w : World) :
  after (analyzeLocation lat lon placeName) w = advance 2 w \/
  after (analyzeLocation lat lon placeName) w = advance 3 w.
Proof.
  unfold analyzeLocation, after, bind, ret.
  pose proof (estimatePopulation_advance (Some placeName) w) as E.
  unfold after in E.
  destruct (estimatePopulation (Some placeName) w) as [population w1].
  cbn [snd] in *. destruct E as [-> | ->]; [left | right]; reflexivity.
Qed.

(** X8: [identifyHazards] and [calculateResilience] each take exactly one
    draw, [analyzeLocation] takes two or three (three when the population
    estimate draws as well), and none of them changes anything else: the
    selected location, the chat history and the chat elements stay as they
    were. *)
Theorem analysis_only_draws `{Runtime} (lat lon : float)
        (placeName : jsstring) (w : World) :
  after (identifyHazards lat lon) w = advance 1 w /\
  after (calculateResilience lat lon) w = advance 1 w /\
  (after (analyzeLocation lat lon placeName) w = advance 2 w \/
   after (analyzeLocation lat lon placeName) w = advance 3 w).
Proof.
  split; [reflexivity |]. split; [reflexivity |].
  apply analysis_only_draws_aux.
Qed.

(* --------------------------------------------------------------------- *)
(** ** What the assistant changes *)
(* --------------------------------------------------------------------- *)

Lemma populationReply_after `{Runtime} (w : World) :
  after populationReply w = w \/ after populationReply w = advance 1 w.
Proof.
  unfold populationReply, getCurrentLocation, after, bind.
  destruct (currentLocation w) as [loc |]; [| left; reflexivity].
  pose proof (estimatePopulation_advance (placeName loc) w) as E.
  unfold after in E.
  destruct (estimatePopulation (placeName loc) w) as [population w1].
  exact E.
Qed.

Lemma hazardReply_after (w : World) :
  after hazardReply w = w \/ after hazardReply w = advance 1 w.
Proof.
  unfold hazardReply, getCurrentLocation, after, bind.
  destruct (currentLocation w) as [loc |]; [right | left]; reflexivity.
Qed.

Lemma solutionReply_after (w : World) : after solutionReply w = w.
Proof.
  unfold solutionReply, getCurrentLocation, after, bind.
  destruct (currentLocation w) as [loc |]; reflexivity.
Qed.

Lemma generateAIResponse_after `{Runtime} (userMessage : jsstring)
      (w : World) :
  exists n : nat,
    (n = 0 \/ n = 1)%nat /\
    after (generateAIResponse userMessage) w
    = after (noteResponderCall userMessage) (advance n w).
Proof.
  unfold generateAIResponse, after at 1, bind.
  change (noteResponderCall userMessage w)
    with (tt, after (noteResponderCall userMessage) w).
  set (w0 := after (noteResponderCall userMessage) w).
  assert (E0 : w0 = after (noteResponderCall userMessage) (advance 0 w))
    by reflexivity.
  assert (E1 : advance 1 w0
               = after (noteResponderCall userMessage) (advance 1 w))
    by reflexivity.
  cbv zeta. split_ifs.
  - destruct (populationReply_after w0) as [E | E]; unfold after in E;
      rewrite E; [exists 0%nat | exists 1%nat]; auto.
  - destruct (hazardReply_after w0) as [E | E]; unfold after in E;
      rewrite E; [exists 0%nat | exists 1%nat]; auto.
  - pose proof (solutionReply_after w0) as E. unfold after in E.
    rewrite E. exists 0%nat. auto.
  - exists 0%nat. auto.
  - exists 0%nat. auto.
  - exists 0%nat. auto.
  - exists 0%nat. auto.
Qed.

(** X9: a call of [generateAIResponse] takes at most one random draw and
    (apart from being recorded in the ghost log) changes nothing else: the
    selected location, the chat history, the inputs and the containers are
    as before. *)
Theorem generateAIResponse_effect `{Runtime} (userMessage : jsstring)
        (w : World) :
  let w' := after (generateAIResponse userMessage) w in
  draws w' = draws w /\
  (cursor w' = cursor w \/ cursor w' = S (cursor w)) /\
  currentLocation w' = currentLocation w /\
  chatMessages w' = chatMessages w /\
  chatInput w' = chatInput w /\
  modalChatInput w' = modalChatInput w /\
  chatPanel w' = chatPanel w /\
  modalChatPanel w' = modalChatPanel w /\
  responderCalls w' = responderCalls w ++ [userMessage].
Proof.
  cbv zeta.
  destruct (generateAIResponse_after userMessage w) as [n [[-> | ->] ->]];
    cbn; intuition reflexivity.
Qed.

(** X10: while no location is selected, [generateAIResponse] takes no
    draw and answers with one of seven fixed strings. *)
Theorem reply_without_location `{Runtime} (userMessage : jsstring)
        (w : World) :
  currentLocation w = None ->
  In (value (generateAIResponse userMessage) w) repliesWithoutLocation /\
  after (generateAIResponse userMessage) w
  = after (noteResponderCall userMessage) w.
Proof.
  intros Hloc.
  unfold generateAIResponse, value, after, bind, noteResponderCall,
    populationReply, hazardReply, solutionReply, getCurrentLocation, ret.
  cbv zeta. cbn [fst snd currentLocation]. rewrite Hloc.
  split_ifs; cbn [fst snd]; (split; [| reflexivity]);
    unfold repliesWithoutLocation; cbn [In]; auto 10.
Qed.

Lemma reply_without_location_witness :
  let w := initialWorld alternatingDraws in
  currentLocation w = None /\
  In (value (generateAIResponse (lit "Any flood risk?")) w)
     repliesWithoutLocation /\
  after (generateAIResponse (lit "Any flood risk?")) w
  = after (noteResponderCall (lit "Any flood risk?")) w.
Proof.
  cbv zeta. split; [reflexivity |].
  apply (@reply_without_location asciiRuntime). reflexivity.
Defined.

(* --------------------------------------------------------------------- *)
(** ** Trimming *)
(* --------------------------------------------------------------------- *)

Lemma trimStart_split (s : jsstring) :
  exists front, s = front ++ trimStart s /\ forallb isWhiteSpace front = true.
Proof.
  induction s as [| c s [front [E Hf]]]; cbn [trimStart].
  - exists []. split; reflexivity.
  - destruct (isWhiteSpace c) eqn:Hc.
    + exists (c :: front). cbn. rewrite Hc, Hf, <- E. split; reflexivity.
    + exists []. split; reflexivity.
Qed.

Lemma trimStart_head (s : jsstring) (c : N) (rest : jsstring) :
  trimStart s = c :: rest -> isWhiteSpace c = false.
Proof.
  induction s as [| d s IH]; cbn [trimStart]; [discriminate |].
  destruct (isWhiteSpace d) eqn:Hd; [exact IH |].
  intros E. injection E as <- _. exact Hd.
Qed.

Lemma forallb_rev {A} (f : A -> bool) (l : list A) :
  forallb f l = true -> forallb f (rev l) = true.
Proof.
  rewrite !forallb_forall. intros H x Hx. apply H, in_rev, Hx.
Qed.

Lemma trimEnd_split (s : jsstring) :
  exists back, s = trimEnd s ++ back /\ forallb isWhiteSpace back = true.
Proof.
  unfold trimEnd. destruct (trimStart_split (rev s)) as [front [E Hf]].
  exists (rev front). split; [| apply forallb_rev, Hf].
  rewrite <- rev_app_distr, <- E, rev_involutive. reflexivity.
Qed.

Lemma trimEnd_last (s front : jsstring) (c : N) :
  trimEnd s = front ++ [c] -> isWhiteSpace c = false.
Proof.
  unfold trimEnd. intros E. apply (f_equal (@rev N)) in E.
  rewrite rev_involutive, rev_app_distr in E. cbn in E.
  exact (trimStart_head _ _ _ E).
Qed.

Lemma trimEnd_head (c : N) (rest : jsstring) :
  isWhiteSpace c = false -> exists rest', trimEnd (c :: rest) = c :: rest'.
Proof.
  intros Hc. destruct (trimEnd_split (c :: rest)) as [back [E Hb]].
  destruct (trimEnd (c :: rest)) as [| d rest'].
  - cbn in E. subst back. cbn in Hb. rewrite Hc in Hb. discriminate Hb.
  - injection E as <- _. exists rest'. reflexivity.
Qed.

(** What [trim] returns is empty or trimmed. *)
Lemma trim_isTrimmed (s : jsstring) :
  falsy (trim s) = false -> isTrimmed (trim s) = true.
Proof.
  unfold trim. destruct (trimStart s) as [| c rest] eqn:Es; [discriminate |].
  intros _. pose proof (trimStart_head _ _ _ Es) as Hc.
  destruct (trimEnd_head c rest Hc) as [rest' E].
  rewrite E. cbn [isTrimmed]. rewrite Hc. cbn [negb andb].
  destruct (@exists_last N (c :: rest')) as [front [d Ed]]; [discriminate |].
  rewrite Ed, last_last. rewrite Ed in E.
  rewrite (trimEnd_last _ _ _ E). reflexivity.
Qed.

(* --------------------------------------------------------------------- *)
(** ** More on the chat *)
(* --------------------------------------------------------------------- *)

(** The state after a send that is not ignored. *)
Lemma sendChatMessage_after `{Runtime} (isModal : bool) (w : World) :
  let message := trim (if isModal then modalChatInput w else chatInput w) in
  falsy message = false ->
  let w1 := after (addChatMessage (lit "user") message isModal ;;;
                   setInputValue isModal []) w in
  exists n : nat,
    (n = 0 \/ n = 1)%nat /\
    after (sendChatMessage isModal) w
    = after (addChatMessage (lit "ai")
               (value (generateAIResponse message) w1) isModal)
            (after (noteResponderCall message) (advance n w1)).
Proof.
  cbv zeta. intros Hne.
  set (message := trim (if isModal then modalChatInput w else chatInput w))
    in *.
  set (w1 := after (addChatMessage (lit "user") message isModal ;;;
                    setInputValue isModal []) w).
  destruct (generateAIResponse_after message w1) as [n [Hn E]].
  exists n. split; [exact Hn |]. rewrite <- E.
  unfold sendChatMessage, after at 1, bind at 1, getInputValue.
  cbv beta iota zeta. fold message. rewrite Hne.
  change (snd (let (aiResponse, w3) := generateAIResponse message w1 in
               addChatMessage (lit "ai") aiResponse isModal w3)
          = after (addChatMessage (lit "ai")
                     (value (generateAIResponse message) w1) isModal)
                  (after (generateAIResponse message) w1)).
  unfold value, after.
  destruct (generateAIResponse message w1) as [aiResponse w3]. reflexivity.
Qed.

(** X11: a send whose trimmed input is not empty appends the user's
    trimmed message and then the reply to [chatMessages], appends their two
    [div]s to the selected container, empties the selected input, calls
    [generateAIResponse] once with the trimmed message, and leaves the
    other input, the other container and the selected location alone. *)
Theorem sendChatMessage_effect `{Runtime} (isModal : bool) (w : World) :
  let message := trim (if isModal then modalChatInput w else chatInput w) in
  falsy message = false ->
  let w1 := after (addChatMessage (lit "user") message isModal ;;;
                   setInputValue isModal []) w in
  let sent := [ mkEntry (lit "user") message;
                mkEntry (lit "ai") (value (generateAIResponse message) w1) ] in
  let w' := after (sendChatMessage isModal) w in
  chatMessages w' = chatMessages w ++ sent /\
  (if isModal then modalChatPanel w' else chatPanel w')
  = (if isModal then modalChatPanel w else chatPanel w) ++ map divOf sent /\
  (if isModal then chatPanel w' else modalChatPanel w')
  = (if isModal then chatPanel w else modalChatPanel w) /\
  (if isModal then modalChatInput w' else chatInput w') = [] /\
  (if isModal then chatInput w' else modalChatInput w')
  = (if isModal then chatInput w else modalChatInput w) /\
  responderCalls w' = responderCalls w ++ [message] /\
  currentLocation w' = currentLocation w.
Proof.
  cbv zeta. intros Hne.
  destruct (sendChatMessage_after isModal w Hne) as [n [Hn ->]].
  destruct isModal; cbn; unfold push; rewrite <- !app_assoc;
    intuition reflexivity.
Qed.

Lemma sendChatMessage_effect_witness :
  let w := askingWorld in
  let message := trim (chatInput w) in
  let w' := after (sendChatMessage false) w in
  falsy message = false /\
  List.length (chatMessages w') = 2%nat /\
  List.length (chatPanel w') = 2%nat /\
  modalChatPanel w' = [] /\
  chatInput w' = [] /\
  responderCalls w' = [message].
Proof.
  cbv zeta. split; [reflexivity |].
  destruct (@sendChatMessage_effect asciiRuntime false askingWorld eq_refl)
    as [Hm [Hp [Ho [Hi [_ [Hr _]]]]]].
  cbv zeta in *. cbn [askingWorld chatMessages chatPanel modalChatPanel
                      responderCalls chatInput app] in *.
  rewrite Hm, Hp, Ho, Hi, Hr. repeat split.
Defined.

(** What one event of a session appends, and where its [div]s go. *)
Lemma runEvent_step `{Runtime} (ev : ChatEvent) (w : World) :
  exists (new : list ChatEntry) (isModal : bool),
    chatMessages (after (runEvent ev) w) = chatMessages w ++ new /\
    chatPanel (after (runEvent ev) w)
    = chatPanel w ++ (if isModal then [] else map divOf new) /\
    modalChatPanel (after (runEvent ev) w)
    = modalChatPanel w ++ (if isModal then map divOf new else []) /\
    (new = [] \/
     (exists message reply,
         new = [mkEntry (lit "user") message; mkEntry (lit "ai") reply] /\
         isTrimmed message = true) \/
     new = [mkEntry (lit "ai") imageAnalysis]).
Proof.
  destruct ev as [isModal text | lat lon placeName | isModal | isModal];
    cbn [runEvent].
  - exists [], false. destruct isModal; cbn; rewrite !app_nil_r; auto.
  - exists [], false. cbn. rewrite !app_nil_r. auto.
  - destruct (falsy (trim (if isModal then modalChatInput w
                           else chatInput w))) eqn:Hne.
    + exists [], false.
      assert (E : sendChatMessage isModal w = (tt, w)).
      { unfold sendChatMessage, bind, getInputValue. cbv beta iota zeta.
        rewrite Hne. reflexivity. }
      unfold after. rewrite E. cbn. rewrite !app_nil_r. auto.
    + destruct (sendChatMessage_after isModal w Hne) as [n [Hn ->]].
      pose proof (trim_isTrimmed _ Hne) as Htrim.
      exists
        [ mkEntry (lit "user")
            (trim (if isModal then modalChatInput w else chatInput w));
          mkEntry (lit "ai")
            (value
               (generateAIResponse
                  (trim (if isModal then modalChatInput w else chatInput w)))
               (after
                  (addChatMessage (lit "user")
                     (trim (if isModal then modalChatInput w
                            else chatInput w)) isModal ;;;
                   setInputValue isModal []) w)) ], isModal.
      split; [| split; [| split]].
      4: { right. left. eexists _, _. split; [reflexivity | exact Htrim]. }
      all: destruct isModal; cbn; unfold push; rewrite <- ?app_assoc;
        rewrite ?app_nil_r; reflexivity.
  - exists [mkEntry (lit "ai") imageAnalysis], isModal.
    split; [reflexivity |].
    destruct isModal; cbn [imageAnalysisDone after addChatMessage bind
                           appendChild pushChatMessage snd chatPanel
                           modalChatPanel map divOf];
      unfold push; rewrite ?app_nil_r; auto.
Qed.

(** Induction over the events of a session. *)
Lemma session_invariant `{Runtime} (P : World -> Prop) :
  (forall ev w, P w -> P (after (runEvent ev) w)) ->
  forall evs w, P w -> P (runEvents evs w).
Proof.
  intros Hstep evs. induction evs as [| ev evs IH]; intros w Hw;
    cbn [runEvents]; [exact Hw |].
  apply IH, Hstep, Hw.
Qed.

Lemma answered_app (old new : list ChatEntry) :
  answered old = true -> answered new = true ->
  answered (old ++ new) = true.
Proof.
  intros Ho Hn. induction old as [| e rest IH]; [exact Hn |].
  cbn [answered app] in *. apply andb_true_iff in Ho as [He Hrest].
  rewrite (IH Hrest), andb_true_r.
  destruct (strictEq (type e) (lit "user")); [| reflexivity].
  destruct rest as [| reply rest']; [discriminate He | exact He].
Qed.

(** X12: at every point of a session that starts with an empty history,
    each entry of [chatMessages] tagged ['user'] is directly followed by an
    entry tagged ['ai']: no user message is stored without its reply. *)
Theorem user_messages_answered `{Runtime} (evs : list ChatEvent)
        (w0 : World) :
  chatMessages w0 = [] ->
  answered (chatMessages (runEvents evs w0)) = true.
Proof.
  intros H0.
  apply (session_invariant (fun w => answered (chatMessages w) = true));
    [| rewrite H0; reflexivity].
  intros ev w Hw.
  destruct (runEvent_step ev w)
    as [new [isModal [-> [_ [_ [-> | [[m [r [-> _]]] | ->]]]]]]];
    apply answered_app; auto.
Qed.

Lemma user_messages_answered_witness :
  let w := runEvents [ SendRequested false; ImageAnalysed true;
                       InputEdited false (lit "and the weather?");
                       SendRequested false ] askingWorld in
  chatMessages askingWorld = [] /\
  List.length (chatMessages w) = 5%nat /\
  answered (chatMessages w) = true.
Proof.
  cbv zeta. split; [reflexivity |]. split; [vm_compute; reflexivity |].
  apply (@user_messages_answered asciiRuntime). reflexivity.
Defined.

(** X13: at every point of such a session, the content of each entry
    tagged ['user'] is not empty and has no white space at either end. *)
Theorem user_messages_trimmed `{Runtime} (evs : list ChatEvent)
        (w0 : World) :
  chatMessages w0 = [] ->
  Forall (fun e => type e = lit "user" -> isTrimmed (content e) = true)
         (chatMessages (runEvents evs w0)).
Proof.
  intros H0.
  apply (session_invariant
           (fun w => Forall (fun e => type e = lit "user" ->
                                      isTrimmed (content e) = true)
                            (chatMessages w)));
    [| rewrite H0; constructor].
  intros ev w Hw.
  destruct (runEvent_step ev w)
    as [new [isModal [-> [_ [_ [-> | [[m [r [-> Hm]]] | ->]]]]]]];
    apply Forall_app; (split; [exact Hw |]);
    repeat constructor; cbn [type content]; try discriminate.
  intros _. exact Hm.
Qed.

Lemma user_messages_trimmed_witness :
  let w := runEvents [SendRequested false] askingWorld in
  chatMessages askingWorld = [] /\
  map content (filter (fun e => strictEq (type e) (lit "user"))
                      (chatMessages w))
  = [lit "How many PEOPLE are at risk?"] /\
  Forall (fun e => type e = lit "user" -> isTrimmed (content e) = true)
         (chatMessages w).
Proof.
  cbv zeta. split; [reflexivity |]. split; [vm_compute; reflexivity |].
  apply (@user_messages_trimmed asciiRuntime). reflexivity.
Defined.


(** X15: the listener of the side-panel Send button runs [sendChatMessage]
    with the click event as [isModal]: it never reads or empties the
    side-panel input and never adds to the side-panel container, and when
    the full-screen input is blank it does nothing at all, whatever has
    been typed in the side panel. *)
Theorem side_send_button_uses_modal_input `{Runtime} (w : World) :
  chatInput (after sendChatClicked w) = chatInput w /\
  chatPanel (after sendChatClicked w) = chatPanel w /\
  (forallb isWhiteSpace (modalChatInput w) = true ->
   sendChatClicked w = (tt, w)).
Proof.
  unfold sendChatClicked.
  assert (Blank : falsy (trim (modalChatInput w)) = true ->
                  sendChatMessage true w = (tt, w)).
  { intros Hb. unfold sendChatMessage, bind, getInputValue.
    cbv beta iota zeta. rewrite Hb. reflexivity. }
  destruct (falsy (trim (modalChatInput w))) eqn:Hne.
  - rewrite (Blank eq_refl). unfold after. rewrite (Blank eq_refl).
    repeat split.
  - destruct (sendChatMessage_after true w Hne) as [n [Hn ->]].
    split; [reflexivity |]. split; [reflexivity |].
    intros Hws. rewrite (trim_whitespace _ Hws) in Hne. discriminate Hne.
Qed.

(** A state in which a question waits in the side-panel input and the
    full-screen input is empty. *)
Lemma side_send_button_uses_modal_input_witness :
  forallb isWhiteSpace (modalChatInput askingWorld) = true /\
  falsy (trim (chatInput askingWorld)) = false /\
  sendChatClicked askingWorld = (tt, askingWorld) /\
  List.length
    (chatMessages (after (chatInputKeypress (lit "Enter")) askingWorld))
  = 2%nat.
Proof.
  split; [reflexivity |]. split; [reflexivity |]. split.
  - apply (proj2 (proj2 (@side_send_button_uses_modal_input asciiRuntime
                           askingWorld))).
    reflexivity.
  - vm_compute. reflexivity.
Defined.

(* --------------------------------------------------------------------- *)
(** ** Layers on the map *)
(* --------------------------------------------------------------------- *)

Lemma sameLayer_refl (l : Layer) : sameLayer l l = true.
Proof. apply Nat.eqb_refl. Qed.

Lemma sameLayer_In (ls : list Layer) (l x : Layer) :
  NoDup (map layerId ls) -> In l ls -> In x ls ->
  sameLayer l x = true -> x = l.
Proof.
  unfold sameLayer. intros Hnd Hl Hx E. apply Nat.eqb_eq in E.
  induction ls as [| a ls IH]; [destruct Hl |].
  cbn in Hnd. inversion Hnd as [| ? ? Hna Hnd']; subst.
  destruct Hl as [-> | Hl], Hx as [-> | Hx]; auto.
  - exfalso. apply Hna. rewrite E. apply in_map, Hx.
  - exfalso. apply Hna. rewrite <- E. apply in_map, Hl.
Qed.

Lemma NoDup_map_filter {A B} (f : A -> B) (g : A -> bool) (l : list A) :
  NoDup (map f l) -> NoDup (map f (filter g l)).
Proof.
  induction l as [| a l IH]; cbn; [auto |].
  intros Hnd. inversion Hnd as [| ? ? Hna Hnd']; subst.
  destruct (g a); cbn; [constructor |]; auto.
  intros Hin. apply Hna. apply in_map_iff in Hin as [x [E Hx]].
  apply filter_In in Hx as [Hx _]. rewrite <- E. apply in_map, Hx.
Qed.

Lemma Forall_filter_keep {A} (P : A -> Prop) (g : A -> bool) (l : list A) :
  Forall P l -> Forall P (filter g l).
Proof.
  rewrite !Forall_forall. intros H x Hx. apply filter_In in Hx as [Hx _].
  apply H, Hx.
Qed.

Lemma filter_comm {A} (f g : A -> bool) (l : list A) :
  filter f (filter g l) = filter g (filter f l).
Proof.
  induction l as [| a l IH]; cbn; [reflexivity |].
  destruct (f a) eqn:Ef, (g a) eqn:Eg; cbn; rewrite ?Ef, ?Eg, IH; reflexivity.
Qed.

Lemma filter_all {A} (f : A -> bool) (l : list A) :
  (forall x, In x l -> f x = true) -> filter f l = l.
Proof.
  induction l as [| a l IH]; cbn; [reflexivity |]. intros H.
  rewrite (H a (or_introl eq_refl)), IH; auto.
Qed.

Lemma filter_none {A} (f : A -> bool) (l : list A) :
  (forall x, In x l -> f x = false) -> filter f l = [].
Proof.
  induction l as [| a l IH]; cbn; [reflexivity |]. intros H.
  rewrite (H a (or_introl eq_refl)), IH; auto.
Qed.

Lemma hasKind_kind (k : LayerKind) (l : Layer) :
  hasKind k l = true <-> kind l = k.
Proof.
  unfold hasKind. destruct k, (kind l); split; congruence.
Qed.

Lemma ofKind_add (k : LayerKind) (ls : list Layer) (l : Layer) :
  ofKind k (ls ++ [l]) = ofKind k ls ++ (if hasKind k l then [l] else []).
Proof. unfold ofKind. rewrite filter_app. reflexivity. Qed.

(** Taking one layer that is on the map off it. *)
Lemma ofKind_without_one (k : LayerKind) (ls : list Layer) (l : Layer) :
  NoDup (map layerId ls) -> In l ls ->
  ofKind k (without [l] ls)
  = if hasKind k l
    then filter (fun x => negb (sameLayer l x)) (ofKind k ls)
    else ofKind k ls.
Proof.
  intros Hnd Hl. unfold ofKind, without. rewrite filter_comm.
  assert (E : filter (fun x => negb (existsb (fun g => sameLayer g x) [l]))
                     (filter (hasKind k) ls)
              = filter (fun x => negb (sameLayer l x)) (filter (hasKind k) ls)).
  { apply filter_ext. intros x. cbn. rewrite orb_false_r. reflexivity. }
  rewrite E. destruct (hasKind k l) eqn:Hk; [reflexivity |].
  apply filter_all. intros x Hx. apply filter_In in Hx as [Hx Hkx].
  destruct (sameLayer l x) eqn:Es; [| reflexivity].
  rewrite (sameLayer_In ls l x Hnd Hl Hx Es) in Hkx. congruence.
Qed.

(** Taking all the markers off a map on which they are the only marker
    layers. *)
Lemma ofKind_without_markers (k : LayerKind) (ls : list Layer) :
  NoDup (map layerId ls) ->
  ofKind k (without (ofKind MarkerKind ls) ls)
  = match k with MarkerKind => [] | _ => ofKind k ls end.
Proof.
  intros Hnd.
  assert (E : without (ofKind MarkerKind ls) ls
              = filter (fun x => negb (hasKind MarkerKind x)) ls).
  { unfold without. apply filter_ext_in. intros x Hx. f_equal.
    destruct (hasKind MarkerKind x) eqn:Hk.
    - apply existsb_exists. exists x. split; [| apply sameLayer_refl].
      apply filter_In. auto.
    - destruct (existsb _ _) eqn:Ex; [| reflexivity].
      apply existsb_exists in Ex as [g [Hg Es]].
      apply filter_In in Hg as [Hg Hkg].
      rewrite (sameLayer_In ls g x Hnd Hg Hx Es) in Hk. congruence. }
  rewrite E. unfold ofKind. rewrite filter_comm.
  destruct k.
  4: { apply filter_none. intros x Hx. apply filter_In in Hx as [_ Hx].
       rewrite Hx. reflexivity. }
  all: apply filter_all; intros x Hx; apply filter_In in Hx as [_ Hx];
    apply hasKind_kind in Hx; unfold hasKind; rewrite Hx; reflexivity.
Qed.

(* --------------------------------------------------------------------- *)
(** ** Running page handlers *)
(* --------------------------------------------------------------------- *)

Lemma afterP_bind {A B} (c : PM A) (k : A -> PM B) (p : Page) :
  afterP (bindP c k) p = afterP (k (valueP c p)) (afterP c p).
Proof. unfold afterP, valueP, bindP. destruct (c p). reflexivity. Qed.

Lemma valueP_bind {A B} (c : PM A) (k : A -> PM B) (p : Page) :
  valueP (bindP c k) p = valueP (k (valueP c p)) (afterP c p).
Proof. unfold afterP, valueP, bindP. destruct (c p). reflexivity. Qed.

Lemma afterP_get {A} (field : Page -> A) (p : Page) : afterP (get field) p = p.
Proof. reflexivity. Qed.

Lemma valueP_get {A} (field : Page -> A) (p : Page) :
  valueP (get field) p = field p.
Proof. reflexivity. Qed.

Lemma afterP_retP {A} (a : A) (p : Page) : afterP (retP a) p = p.
Proof. reflexivity. Qed.

(** A computation on [world] changes [world] only. *)
Lemma afterP_liftW {A} (c : M A) (p : Page) :
  afterP (liftW c) p = afterP (setWorld (after c (world p))) p.
Proof. unfold liftW, afterP, after. destruct (c (world p)). reflexivity. Qed.

Lemma valueP_liftW {A} (c : M A) (p : Page) :
  valueP (liftW c) p = value c (world p).
Proof. unfold liftW, valueP, value. destruct (c (world p)). reflexivity. Qed.

Ltac stepP :=
  repeat first
    [ rewrite afterP_bind | rewrite valueP_bind | rewrite afterP_get
    | rewrite valueP_get | rewrite afterP_retP | rewrite afterP_liftW
    | rewrite valueP_liftW ].

Lemma without_nil (ls : list Layer) : without [] ls = ls.
Proof. unfold without. apply filter_all. reflexivity. Qed.

Lemma without_cons (g : Layer) (gone ls : list Layer) :
  without gone (filter (fun x => negb (sameLayer g x)) ls)
  = without (g :: gone) ls.
Proof.
  unfold without. induction ls as [| a ls IH]; cbn; [reflexivity |].
  destruct (sameLayer g a); cbn; rewrite IH; reflexivity.
Qed.

Lemma forEach_removeLayer (ms : list Marker) (p : Page) :
  afterP (forEach ms (fun marker => removeLayer (markerLayer marker))) p
  = afterP (setMapLayers (without (map markerLayer ms) (mapLayers p))) p.
Proof.
  revert p. induction ms as [| m ms IH]; intros p; cbn [forEach map].
  - rewrite without_nil. destruct p. reflexivity.
  - rewrite afterP_bind, IH. unfold removeLayer. stepP.
    cbn [afterP setMapLayers snd mapLayers]. rewrite without_cons.
    reflexivity.
Qed.

Lemma clearMarkers_after (p : Page) :
  afterP clearMarkers p
  = afterP (setMapLayers (without (map markerLayer (markers p)) (mapLayers p))
            >> setMarkers []) p.
Proof.
  unfold clearMarkers. stepP. rewrite forEach_removeLayer. reflexivity.
Qed.

Lemma fresh_not_on_map (n : nat) (k : LayerKind) (ls : list Layer) :
  Forall (fun l => (layerId l < n)%nat) ls ->
  existsb (sameLayer (mkLayer n k)) ls = false.
Proof.
  intros Hf. destruct (existsb _ ls) eqn:E; [| reflexivity].
  apply existsb_exists in E as [x [Hx Es]].
  rewrite Forall_forall in Hf. specialize (Hf x Hx).
  unfold sameLayer in Es. cbn in Es. apply Nat.eqb_eq in Es. lia.
Qed.

(** Adding a marker to a map whose layers were all created before. *)
Lemma addMarker_after (lat lon : float) (popup : option jsstring) (p : Page) :
  Forall (fun l => (layerId l < created p)%nat) (mapLayers p) ->
  afterP (addMarker lat lon popup) p
  = afterP (setCreated (S (created p)) >>
            setMapLayers (mapLayers p ++ [mkLayer (created p) MarkerKind]) >>
            setMarkers (markers p
                        ++ [mkMarker (mkLayer (created p) MarkerKind)
                                     (lat, lon) popup])) p.
Proof.
  intros Hf. unfold addMarker, newLayer, addLayer. stepP.
  cbn [afterP valueP setCreated retP fst snd mapLayers created].
  rewrite (fresh_not_on_map _ MarkerKind _ Hf). reflexivity.
Qed.

(* --------------------------------------------------------------------- *)
(** ** Consistency of the map with the globals *)
(* --------------------------------------------------------------------- *)

Lemma consistent_core (p q : Page) :
  core q = core p -> consistent p -> consistent q.
Proof.
  unfold core, consistent. intros E. injection E as -> -> -> -> -> ->.
  auto.
Qed.

Lemma NoDup_add_fresh (n : nat) (k : LayerKind) (ls : list Layer) :
  NoDup (map layerId ls) ->
  Forall (fun l => (layerId l < n)%nat) ls ->
  NoDup (map layerId (ls ++ [mkLayer n k])).
Proof.
  intros Hnd Hf. rewrite map_app. cbn.
  apply NoDup_rev in Hnd. rewrite <- (rev_involutive (_ ++ _)).
  apply NoDup_rev. rewrite rev_app_distr. cbn. constructor; [| exact Hnd].
  intros Hin. apply in_rev, in_map_iff in Hin as [x [E Hx]].
  rewrite Forall_forall in Hf. specialize (Hf x Hx). lia.
Qed.

Lemma Forall_add_fresh (n : nat) (k : LayerKind) (ls : list Layer) :
  Forall (fun l => (layerId l < n)%nat) ls ->
  Forall (fun l => (layerId l < S n)%nat) (ls ++ [mkLayer n k]).
Proof.
  intros Hf. apply Forall_app. split.
  - eapply Forall_impl; [| exact Hf]. cbn. intros l Hl. lia.
  - repeat constructor.
Qed.

Lemma hazardId_add_fresh (n : nat) (k : LayerKind) (ls : list Layer) :
  (2 <= n)%nat ->
  Forall (fun l => layerId l = 1%nat -> l = hazardLayer) ls ->
  Forall (fun l => layerId l = 1%nat -> l = hazardLayer)
         (ls ++ [mkLayer n k]).
Proof.
  intros Hn Hh. apply Forall_app. split; [exact Hh |].
  repeat constructor. cbn. lia.
Qed.

(** A handler that touches neither the map nor the globals on it. *)
Lemma loadLocationInfo_core `{Runtime} (lat lon : float)
      (placeName : option jsstring) (p : Page) :
  core (afterP (loadLocationInfo lat lon placeName) p) = core p.
Proof.
  unfold loadLocationInfo, showAnalysis, fetch.
  destruct placeName as [[| c s] |]; stepP; reflexivity.
Qed.

Lemma handleMapClick_core {R : Runtime} (lat lon : float) (p : Page) :
  consistent p ->
  let kept := without (map markerLayer (markers p)) (mapLayers p) in
  let layer := mkLayer (created p) MarkerKind in
  core (afterP (handleMapClick lat lon) p)
  = if validLatLng lat lon
    then (S (created p), kept ++ [layer],
          [mkMarker layer (lat, lon) None],
          is3DMode p, osmb p, satelliteLayer p)
    else (created p, kept, [], is3DMode p, osmb p, satelliteLayer p).
Proof.
  intros (_ & Hf & _). cbv zeta. unfold handleMapClick.
  rewrite afterP_bind, clearMarkers_after. cbv beta.
  destruct (validLatLng lat lon); [| reflexivity].
  rewrite afterP_bind. cbv beta.
  rewrite (@loadLocationInfo_core R). rewrite addMarker_after.
  - reflexivity.
  - cbn. apply Forall_filter_keep, Hf.
Qed.

Lemma searchAnswered_core {R : Runtime} (results : list SearchHit)
      (p : Page) :
  consistent p ->
  core (afterP (searchAnswered results) p)
  = match results with
    | location :: _ =>
        if validLatLng (hitLat location) (hitLon location)
        then let layer := mkLayer (created p) MarkerKind in
             (S (created p), mapLayers p ++ [layer],
              markers p ++ [mkMarker layer
                              (hitLat location, hitLon location)
                              (display_name location)],
              is3DMode p, osmb p, satelliteLayer p)
        else core p
    | [] => core p
    end.
Proof.
  intros (_ & Hf & _). unfold searchAnswered.
  destruct results as [| location rest]; [reflexivity |]. cbv zeta.
  destruct (validLatLng _ _); [| reflexivity].
  rewrite !afterP_bind. cbv beta.
  change (core (afterP (showLoading false) ?q)) with (core q).
  rewrite (@loadLocationInfo_core R). rewrite addMarker_after;
    [reflexivity | exact Hf].
Qed.

Lemma consistent_handleMapClick `{Runtime} (lat lon : float) (p : Page) :
  consistent p -> consistent (afterP (handleMapClick lat lon) p).
Proof.
  intros Hc. pose proof (handleMapClick_core lat lon p Hc) as E.
  cbv zeta in E.
  destruct Hc as (Hnd & Hf & H2 & Hh & Hm & Hb & H3 & Ht & Hg).
  rewrite <- Hm in E.
  assert (Hnd' : NoDup (map layerId
                          (without (ofKind MarkerKind (mapLayers p))
                                   (mapLayers p))))
    by (apply NoDup_map_filter, Hnd).
  assert (Hf' : Forall (fun l => (layerId l < created p)%nat)
                       (without (ofKind MarkerKind (mapLayers p))
                                (mapLayers p)))
    by (apply Forall_filter_keep, Hf).
  assert (Hh' : Forall (fun l => layerId l = 1%nat -> l = hazardLayer)
                       (without (ofKind MarkerKind (mapLayers p))
                                (mapLayers p)))
    by (apply Forall_filter_keep, Hh).
  unfold consistent, core in *.
  destruct (validLatLng lat lon); injection E as -> -> -> -> -> ->.
  - rewrite !ofKind_add, !ofKind_without_markers by exact Hnd. cbn.
    rewrite !app_nil_r.
    repeat split;
      auto using NoDup_add_fresh, Forall_add_fresh, hazardId_add_fresh,
        Forall_filter_keep.
  - rewrite !ofKind_without_markers by exact Hnd.
    repeat split; auto using Forall_filter_keep.
Qed.

Lemma consistent_searchAnswered `{Runtime} (results : list SearchHit)
      (p : Page) :
  consistent p -> consistent (afterP (searchAnswered results) p).
Proof.
  intros Hc. pose proof (searchAnswered_core results p Hc) as E.
  destruct results as [| location rest];
    [exact (consistent_core _ _ E Hc) |].
  destruct (validLatLng _ _); [| exact (consistent_core _ _ E Hc)].
  cbv zeta in E.
  destruct Hc as (Hnd & Hf & H2 & Hh & Hm & Hb & H3 & Ht & Hg).
  unfold consistent, core in *. injection E as -> -> -> -> -> ->.
  rewrite !ofKind_add. cbn [hasKind kind]. rewrite !app_nil_r, Hm.
  repeat split;
    auto using NoDup_add_fresh, Forall_add_fresh, hazardId_add_fresh.
  rewrite map_app. reflexivity.
Qed.

Lemma removeLayer_after (l : Layer) (p : Page) :
  afterP (removeLayer l) p
  = afterP (setMapLayers (without [l] (mapLayers p))) p.
Proof.
  unfold removeLayer. stepP. f_equal. f_equal. unfold without.
  apply filter_ext. intros x. cbn. rewrite orb_false_r. reflexivity.
Qed.

Lemma addLayer_fresh_after (k : LayerKind) (p : Page) :
  Forall (fun l => (layerId l < created p)%nat) (mapLayers p) ->
  afterP (layer <~ newLayer k ;; addLayer layer >> retP layer) p
  = afterP (setCreated (S (created p)) >>
            setMapLayers (mapLayers p ++ [mkLayer (created p) k])) p /\
  valueP (layer <~ newLayer k ;; addLayer layer >> retP layer) p
  = mkLayer (created p) k.
Proof.
  intros Hf. unfold newLayer, addLayer. stepP.
  cbn [afterP valueP setCreated retP fst snd mapLayers created].
  rewrite (fresh_not_on_map _ k _ Hf). split; reflexivity.
Qed.

Lemma toggle3DView_core (p : Page) :
  consistent p ->
  core (afterP toggle3DView p)
  = if is3DMode p
    then (created p, without (optList (osmb p)) (mapLayers p), markers p,
          false, None, satelliteLayer p)
    else (S (created p), mapLayers p ++ [mkLayer (created p) BuildingsKind],
          markers p, true, Some (mkLayer (created p) BuildingsKind),
          satelliteLayer p).
Proof.
  intros (_ & Hf & _ & _ & _ & _ & H3 & _). unfold toggle3DView. stepP.
  destruct (is3DMode p); destruct (osmb p) as [l |] eqn:Eo;
    try discriminate H3; cbn [negb optList]; stepP.
  - rewrite Eo. stepP. cbv beta. rewrite removeLayer_after. reflexivity.
  - rewrite Eo. unfold newLayer, addLayer. stepP.
    cbn [afterP valueP setCreated retP fst snd mapLayers created].
    rewrite (fresh_not_on_map _ BuildingsKind _ Hf). reflexivity.
Qed.

Lemma toggleSatellite_core (p : Page) :
  consistent p ->
  core (afterP toggleSatellite p)
  = match satelliteLayer p with
    | Some l => (created p, without [l] (mapLayers p), markers p,
                 is3DMode p, osmb p, None)
    | None => (S (created p), mapLayers p ++ [mkLayer (created p) TileKind],
               markers p, is3DMode p, osmb p,
               Some (mkLayer (created p) TileKind))
    end.
Proof.
  intros (_ & Hf & _). unfold toggleSatellite. stepP.
  destruct (satelliteLayer p) as [l |]; stepP.
  - cbv beta. rewrite removeLayer_after. reflexivity.
  - unfold newLayer, addLayer. stepP.
    cbn [afterP valueP setCreated retP fst snd mapLayers created].
    rewrite (fresh_not_on_map _ TileKind _ Hf). reflexivity.
Qed.

Lemma toggleHazards_core (p : Page) :
  core (afterP toggleHazards p)
  = (created p,
     (if existsb (sameLayer hazardLayer) (mapLayers p)
      then without [hazardLayer] (mapLayers p)
      else mapLayers p ++ [hazardLayer]),
     markers p, is3DMode p, osmb p, satelliteLayer p).
Proof.
  unfold toggleHazards, hasLayer. stepP.
  cbn [valueP retP fst].
  destruct (existsb (sameLayer hazardLayer) (mapLayers p)) eqn:E; stepP.
  - cbv beta. rewrite removeLayer_after. reflexivity.
  - unfold addLayer. stepP. rewrite E. reflexivity.
Qed.

Lemma NoDup_without (gone ls : list Layer) :
  NoDup (map layerId ls) -> NoDup (map layerId (without gone ls)).
Proof. apply NoDup_map_filter. Qed.

Lemma Forall_without (P : Layer -> Prop) (gone ls : list Layer) :
  Forall P ls -> Forall P (without gone ls).
Proof. apply Forall_filter_keep. Qed.

Lemma ofKind_In (k : LayerKind) (ls : list Layer) (l : Layer) :
  In l (ofKind k ls) <-> In l ls /\ kind l = k.
Proof. unfold ofKind. rewrite filter_In, hasKind_kind. reflexivity. Qed.

Lemma consistent_toggle3DView (p : Page) :
  consistent p -> consistent (afterP toggle3DView p).
Proof.
  intros Hc. pose proof (toggle3DView_core p Hc) as E.
  destruct Hc as (Hnd & Hf & H2 & Hh & Hm & Hb & H3 & Ht & Hg).
  unfold consistent, core in *.
  destruct (is3DMode p); destruct (osmb p) as [l |]; try discriminate H3;
    injection E as -> -> -> -> -> ->; cbn [optList isSome] in *.
  - assert (Hl : In l (mapLayers p) /\ kind l = BuildingsKind).
    { apply ofKind_In. rewrite Hb. left. reflexivity. }
    destruct Hl as [Hl Hk].
    rewrite !ofKind_without_one by assumption.
    unfold hasKind. rewrite Hk, Hb. cbn. rewrite sameLayer_refl.
    repeat split;
      auto using NoDup_without, Forall_without.
  - rewrite !ofKind_add. cbn [hasKind kind]. rewrite !app_nil_r, Hb.
    repeat split;
      auto using NoDup_add_fresh, Forall_add_fresh, hazardId_add_fresh.
Qed.

Lemma consistent_toggleSatellite (p : Page) :
  consistent p -> consistent (afterP toggleSatellite p).
Proof.
  intros Hc. pose proof (toggleSatellite_core p Hc) as E.
  destruct Hc as (Hnd & Hf & H2 & Hh & Hm & Hb & H3 & Ht & Hg).
  unfold consistent, core in *.
  destruct (satelliteLayer p) as [l |];
    injection E as -> -> -> -> -> ->; cbn [optList isSome] in *.
  - assert (Hl : In l (mapLayers p) /\ kind l = TileKind).
    { apply ofKind_In. rewrite Ht. right. left. reflexivity. }
    destruct Hl as [Hl Hk].
    assert (Hne : sameLayer l tileLayer = false).
    { destruct (sameLayer l tileLayer) eqn:Es; [| reflexivity].
      assert (Ht0 : In tileLayer (mapLayers p))
        by (apply (ofKind_In TileKind); rewrite Ht; left; reflexivity).
      pose proof (sameLayer_In _ _ _ Hnd Hl Ht0 Es) as El.
      pose proof (NoDup_map_filter layerId (hasKind TileKind) _ Hnd) as Hn.
      fold (ofKind TileKind (mapLayers p)) in Hn. rewrite Ht, <- El in Hn.
      cbn in Hn. inversion Hn as [| ? ? Hna _]. exfalso. apply Hna.
      left. reflexivity. }
    rewrite !ofKind_without_one by assumption.
    unfold hasKind. rewrite Hk, Ht. cbn. rewrite sameLayer_refl, Hne.
    repeat split;
      auto using NoDup_without, Forall_without.
  - rewrite !ofKind_add. cbn [hasKind kind]. rewrite !app_nil_r, Ht.
    repeat split;
      auto using NoDup_add_fresh, Forall_add_fresh, hazardId_add_fresh.
Qed.

Lemma consistent_toggleHazards (p : Page) :
  consistent p -> consistent (afterP toggleHazards p).
Proof.
  intros Hc. pose proof (toggleHazards_core p) as E.
  destruct Hc as (Hnd & Hf & H2 & Hh & Hm & Hb & H3 & Ht & Hg).
  unfold consistent, core in *.
  destruct (existsb (sameLayer hazardLayer) (mapLayers p)) eqn:Ex;
    injection E as -> -> -> -> -> ->.
  - apply existsb_exists in Ex as [x [Hx Es]].
    assert (Ehx : x = hazardLayer).
    { rewrite Forall_forall in Hh. apply Hh; [exact Hx |].
      unfold sameLayer in Es. apply Nat.eqb_eq in Es. rewrite <- Es.
      reflexivity. }
    subst x.
    assert (Eg : ofKind GroupKind (mapLayers p) = [hazardLayer]).
    { destruct Hg as [Eg | Eg]; [exact Eg |]. exfalso.
      assert (Hin : In hazardLayer (ofKind GroupKind (mapLayers p)))
        by (apply ofKind_In; split; [exact Hx | reflexivity]).
      rewrite Eg in Hin. destruct Hin. }
    rewrite !ofKind_without_one by assumption. cbn [hasKind kind hazardLayer].
    rewrite Eg. cbn.
    repeat split; auto using NoDup_without, Forall_without.
  - assert (Hno : ~ In 1%nat (map layerId (mapLayers p))).
    { intros Hin. apply in_map_iff in Hin as [x [Ex1 Hx]].
      assert (Et : existsb (sameLayer hazardLayer) (mapLayers p) = true).
      { apply existsb_exists. exists x. split; [exact Hx |].
        unfold sameLayer. rewrite Ex1. reflexivity. }
      congruence. }
    assert (Eg : ofKind GroupKind (mapLayers p) = []).
    { destruct Hg as [Eg | Eg]; [| exact Eg]. exfalso. apply Hno.
      assert (Hin : In hazardLayer (ofKind GroupKind (mapLayers p)))
        by (rewrite Eg; left; reflexivity).
      apply ofKind_In in Hin as [Hin _].
      exact (in_map layerId _ _ Hin). }
    rewrite !ofKind_add. cbn [hasKind kind hazardLayer].
    rewrite !app_nil_r, Eg.
    repeat split; auto.
    + rewrite map_app. cbn. apply NoDup_rev in Hnd.
      rewrite <- (rev_involutive (_ ++ _)). apply NoDup_rev.
      rewrite rev_app_distr. cbn. constructor; [| exact Hnd].
      intros Hin. apply Hno, in_rev, Hin.
    + apply Forall_app. split; [exact Hf |]. repeat constructor. cbn. lia.
    + apply Forall_app. split; [exact Hh |]. repeat constructor.
Qed.

Lemma showAnalysis_core `{Runtime} (lat lon : float) (placeName : jsstring)
      (p : Page) :
  core (afterP (showAnalysis lat lon placeName) p) = core p.
Proof. unfold showAnalysis. stepP. reflexivity. Qed.

Lemma performSearch_core (p : Page) : core (afterP performSearch p) = core p.
Proof.
  unfold performSearch. stepP. cbv zeta.
  destruct (falsy (trim (searchInput p))); reflexivity.
Qed.

Lemma runPageEvent_consistent {R : Runtime} (ev : PageEvent) (p : Page) :
  consistent p -> consistent (afterP (runPageEvent ev) p).
Proof.
  intros Hc. destruct ev; cbn [runPageEvent].
  - apply consistent_handleMapClick, Hc.
  - exact (consistent_core _ _ (showAnalysis_core _ _ _ p) Hc).
  - exact Hc.
  - exact Hc.
  - exact (consistent_core _ _ (performSearch_core p) Hc).
  - apply consistent_searchAnswered, Hc.
  - exact Hc.
  - apply consistent_toggle3DView, Hc.
  - apply consistent_toggleSatellite, Hc.
  - apply consistent_toggleHazards, Hc.
  - refine (consistent_core _ _ _ Hc). unfold openFullScreenChat. stepP.
    reflexivity.
  - refine (consistent_core _ _ _ Hc). unfold closeFullScreenChat. stepP.
    reflexivity.
  - refine (consistent_core _ _ _ Hc). stepP. reflexivity.
  - refine (consistent_core _ _ _ Hc). stepP. reflexivity.
Qed.

Lemma initialized_consistent (p : Page) : initialized p -> consistent p.
Proof.
  intros (Hc & Hl & _ & Hm & H3 & Ho & Hs & _).
  unfold consistent. rewrite Hc, Hl, Hm, H3, Ho, Hs. cbn.
  repeat split; auto.
  all: repeat constructor; cbn; try lia;
    try (intros E; try discriminate E; reflexivity);
    intuition discriminate.
Qed.

Lemma session_consistent {R : Runtime} (evs : list PageEvent) (p : Page) :
  consistent p -> consistent (runPageEvents evs p).
Proof.
  revert p. induction evs as [| ev evs IH]; intros p Hc; cbn [runPageEvents];
    [exact Hc |].
  apply IH, runPageEvent_consistent, Hc.
Qed.

(* --------------------------------------------------------------------- *)
(** ** Markers, search and the info panel *)
(* --------------------------------------------------------------------- *)

Lemma addMarker_any (lat lon : float) (popup : option jsstring) (p : Page) :
  afterP (addMarker lat lon popup) p
  = afterP (setCreated (S (created p)) >>
            setMapLayers
              (if existsb (sameLayer (mkLayer (created p) MarkerKind))
                          (mapLayers p)
               then mapLayers p
               else mapLayers p ++ [mkLayer (created p) MarkerKind]) >>
            setMarkers (markers p
                        ++ [mkMarker (mkLayer (created p) MarkerKind)
                                     (lat, lon) popup])) p.
Proof.
  unfold addMarker, newLayer, addLayer. stepP.
  cbn [afterP valueP setCreated retP fst snd mapLayers created].
  destruct (existsb _ (mapLayers p)); reflexivity.
Qed.

Lemma loadLocationInfo_pending `{Runtime} (lat lon : float) (p : Page) :
  afterP (loadLocationInfo lat lon None) p
  = afterP (setWorld (after (setCurrentLocation lat lon None) (world p)) >>
            setInfoPanel DisplayBlock >>
            setInfoPanelContent ContentLoading >>
            setRequests (requests p ++ [ReverseRequest lat lon])) p.
Proof. unfold loadLocationInfo, fetch. stepP. reflexivity. Qed.



Lemma reverseGeocoded_after `{Runtime} (lat lon : float)
      (display_name : option jsstring) (p : Page) :
  let placeName := orElse display_name (lit "Unknown Location") in
  afterP (reverseGeocoded lat lon display_name) p
  = afterP (setWorld (after (analyzeLocation lat lon placeName) (world p)) >>
            setInfoPanelContent
              (ContentAnalysis
                 (value (analyzeLocation lat lon placeName) (world p)))) p.
Proof. cbv zeta. unfold reverseGeocoded, showAnalysis. stepP. reflexivity. Qed.

(** [analyzeLocation] reports the coordinate and the name it was given and
    leaves the selected location alone. *)
Lemma analyzeLocation_report `{Runtime} (lat lon : float)
      (placeName : jsstring) (w : World) :
  Report.coordinates (value (analyzeLocation lat lon placeName) w)
  = (lat, lon) /\
  Report.name (value (analyzeLocation lat lon placeName) w) = placeName /\
  currentLocation (after (analyzeLocation lat lon placeName) w)
  = currentLocation w.
Proof.
  destruct (analysis_only_draws_aux lat lon placeName w) as [E | E];
    rewrite E; unfold analyzeLocation, value, bind, ret;
    destruct (estimatePopulation (Some placeName) w) as [population w1];
    destruct (identifyHazards lat lon w1) as [hazards w2];
    destruct (calculateResilience lat lon w2) as [resilience w3];
    repeat split.
Qed.

(** X16: in every state a session reaches from an initialized page, the
    marker layers on the map are exactly the layers of the [markers]
    array, in the same order, and no two layers on the map are the same
    object. *)
Theorem markers_on_map `{Runtime} (p0 : Page) (evs : list PageEvent) :
  initialized p0 ->
  let p := runPageEvents evs p0 in
  ofKind MarkerKind (mapLayers p) = map markerLayer (markers p) /\
  NoDup (map layerId (mapLayers p)).
Proof.
  intros Hi. cbv zeta.
  destruct (session_consistent evs p0 (initialized_consistent p0 Hi))
    as (Hnd & _ & _ & _ & Hm & _).
  split; assumption.
Qed.

Lemma initialized_samplePage : initialized samplePage.
Proof. repeat split. Qed.

Lemma markers_on_map_witness :
  let p := runPageEvents
             [ SearchAnswered [mkHit manilaLat manilaLon (Some (lit "Manila"))];
               Toggle3DClicked;
               SearchAnswered [mkHit 10.3157%float 123.8854%float None] ]
             samplePage in
  initialized samplePage /\
  List.length (markers p) = 2%nat /\
  ofKind MarkerKind (mapLayers p) = map markerLayer (markers p) /\
  NoDup (map layerId (mapLayers p)).
Proof.
  cbv zeta. split; [exact initialized_samplePage |].
  split; [vm_compute; reflexivity |].
  apply (@markers_on_map asciiRuntime samplePage). exact initialized_samplePage.
Defined.

(** X17: in every such state, a map click at a coordinate Leaflet accepts
    leaves exactly one marker, in the array and on the map, at the clicked
    position and without popup, however many there were; it selects the
    location without a place name, shows the loading notice and issues one
    reverse-geocoding request. *)
Theorem map_click_single_marker {R : Runtime} (p0 : Page)
        (evs : list PageEvent) (lat lon : float) :
  initialized p0 ->
  validLatLng lat lon = true ->
  let p := runPageEvents evs p0 in
  let p' := afterP (handleMapClick lat lon) p in
  let marker := mkMarker (mkLayer (created p) MarkerKind) (lat, lon) None in
  markers p' = [marker] /\
  ofKind MarkerKind (mapLayers p') = [markerLayer marker] /\
  currentLocation (world p') = Some (mkLocation lat lon None) /\
  infoPanelContent p' = ContentLoading /\
  requests p' = requests p ++ [ReverseRequest lat lon].
Proof.
  intros Hi Hv. cbv zeta.
  pose proof (session_consistent evs p0 (initialized_consistent p0 Hi)) as Hc.
  set (p := runPageEvents evs p0) in *.
  pose proof (consistent_handleMapClick lat lon p Hc)
    as (_ & _ & _ & _ & Hm' & _).
  pose proof (handleMapClick_core lat lon p Hc) as E.
  cbv zeta in E. rewrite Hv in E. unfold core in E.
  injection E as _ _ Em _ _ _.
  rewrite Hm', Em. split; [reflexivity |]. split; [reflexivity |].
  unfold handleMapClick. rewrite Hv, afterP_bind, clearMarkers_after.
  cbv beta. rewrite afterP_bind. cbv beta.
  rewrite (@loadLocationInfo_pending R), addMarker_any.
  repeat split.
Qed.

Lemma map_click_single_marker_witness :
  let p := runPageEvents
             [ SearchAnswered [mkHit manilaLat manilaLon (Some (lit "Manila"))];
               SearchAnswered [mkHit 10.3157%float 123.8854%float None] ]
             samplePage in
  let p' := afterP (handleMapClick 7.0731%float 125.6128%float) p in
  initialized samplePage /\
  validLatLng 7.0731%float 125.6128%float = true /\
  List.length (markers p) = 2%nat /\
  markers p'
  = [mkMarker (mkLayer 4 MarkerKind) (7.0731%float, 125.6128%float) None] /\
  ofKind MarkerKind (mapLayers p') = [mkLayer 4 MarkerKind].
Proof.
  cbv zeta. split; [exact initialized_samplePage |].
  split; [reflexivity |]. split; [vm_compute; reflexivity |].
  destruct (@map_click_single_marker asciiRuntime samplePage
              [ SearchAnswered
                  [mkHit manilaLat manilaLon (Some (lit "Manila"))];
                SearchAnswered [mkHit 10.3157%float 123.8854%float None] ]
              7.0731%float 125.6128%float
              initialized_samplePage eq_refl) as [Hm [Hl _]].
  split; [exact Hm | exact Hl].
Defined.



(* --------------------------------------------------------------------- *)
(** ** Map controls *)
(* --------------------------------------------------------------------- *)

Lemma toggle3DView_flags (p : Page) :
  is3DMode (afterP toggle3DView p) = negb (is3DMode p) /\
  toggle3DActive (afterP toggle3DView p) = negb (is3DMode p).
Proof.
  unfold toggle3DView, newLayer, addLayer, removeLayer. stepP.
  destruct (is3DMode p), (osmb p); cbn [negb]; stepP;
    cbn [afterP valueP setCreated retP fst snd mapLayers created];
    try destruct (existsb _ (mapLayers p)); split; reflexivity.
Qed.

(** X19: in every state a session reaches from an initialized page,
    [is3DMode] is set exactly when [osmb] holds a layer, and that layer is
    then the one buildings layer on the map (there is none otherwise);
    [toggle3DView] flips [is3DMode] and leaves the button's [active] class
    equal to it. *)
Theorem buildings_follow_3d_mode `{Runtime} (p0 : Page)
        (evs : list PageEvent) :
  initialized p0 ->
  let p := runPageEvents evs p0 in
  let p' := afterP toggle3DView p in
  is3DMode p = isSome (osmb p) /\
  ofKind BuildingsKind (mapLayers p) = optList (osmb p) /\
  is3DMode p' = negb (is3DMode p) /\
  toggle3DActive p' = is3DMode p'.
Proof.
  intros Hi. cbv zeta.
  destruct (session_consistent evs p0 (initialized_consistent p0 Hi))
    as (_ & _ & _ & _ & _ & Hb & H3 & _).
  destruct (toggle3DView_flags (runPageEvents evs p0)) as [E1 E2].
  rewrite E1, E2. repeat split; assumption.
Qed.

Lemma buildings_follow_3d_mode_witness :
  let p := runPageEvents [Toggle3DClicked; Toggle3DClicked; Toggle3DClicked]
                         samplePage in
  initialized samplePage /\
  is3DMode p = true /\
  ofKind BuildingsKind (mapLayers p) = optList (osmb p) /\
  osmb p = Some (mkLayer 3 BuildingsKind).
Proof.
  cbv zeta. split; [exact initialized_samplePage |].
  split; [vm_compute; reflexivity |].
  split; [| vm_compute; reflexivity].
  apply (@buildings_follow_3d_mode asciiRuntime samplePage
           [Toggle3DClicked; Toggle3DClicked; Toggle3DClicked]
           initialized_samplePage).
Defined.

Lemma toggleSatellite_flags (p : Page) :
  isSome (satelliteLayer (afterP toggleSatellite p))
  = negb (isSome (satelliteLayer p)) /\
  toggleSatelliteActive (afterP toggleSatellite p)
  = negb (isSome (satelliteLayer p)).
Proof.
  unfold toggleSatellite, newLayer, addLayer, removeLayer. stepP.
  destruct (satelliteLayer p); cbn [negb isSome]; stepP;
    cbn [afterP valueP setCreated retP fst snd mapLayers created];
    try destruct (existsb _ (mapLayers p)); split; reflexivity.
Qed.

(** X20: in every state a session reaches from an initialized page, the
    tile layers on the map are the base layer followed by the layer
    [satelliteLayer] holds, if it holds one; [toggleSatellite] switches
    between holding a layer and holding none, and leaves the button's
    [active] class set exactly when a layer is held. *)
Theorem satellite_layer_on_map `{Runtime} (p0 : Page) (evs : list PageEvent) :
  initialized p0 ->
  let p := runPageEvents evs p0 in
  let p' := afterP toggleSatellite p in
  ofKind TileKind (mapLayers p) = tileLayer :: optList (satelliteLayer p) /\
  isSome (satelliteLayer p') = negb (isSome (satelliteLayer p)) /\
  toggleSatelliteActive p' = isSome (satelliteLayer p').
Proof.
  intros Hi. cbv zeta.
  destruct (session_consistent evs p0 (initialized_consistent p0 Hi))
    as (_ & _ & _ & _ & _ & _ & _ & Ht & _).
  destruct (toggleSatellite_flags (runPageEvents evs p0)) as [E1 E2].
  rewrite E1, E2. repeat split; assumption.
Qed.

Lemma satellite_layer_on_map_witness :
  let p := runPageEvents [ToggleSatelliteClicked; Toggle3DClicked] samplePage in
  initialized samplePage /\
  ofKind TileKind (mapLayers p) = [tileLayer; mkLayer 2 TileKind] /\
  satelliteLayer (afterP toggleSatellite p) = None.
Proof.
  cbv zeta. split; [exact initialized_samplePage |].
  destruct (@satellite_layer_on_map asciiRuntime samplePage
              [ToggleSatelliteClicked; Toggle3DClicked]
              initialized_samplePage) as (Ht & _).
  split; [rewrite Ht |]; vm_compute; reflexivity.
Defined.

Lemma hasLayer_without (l : Layer) (ls : list Layer) :
  existsb (sameLayer l) (without [l] ls) = false.
Proof.
  destruct (existsb _ _) eqn:E; [| reflexivity].
  apply existsb_exists in E as [x [Hx Es]]. unfold without in Hx.
  apply filter_In in Hx as [_ Hx]. cbn in Hx. rewrite Es in Hx.
  discriminate Hx.
Qed.

Lemma hasLayer_added (l : Layer) (ls : list Layer) :
  existsb (sameLayer l) (ls ++ [l]) = true.
Proof.
  rewrite existsb_app. cbn. rewrite sameLayer_refl. apply orb_true_r.
Qed.

(** X21: on any page, [toggleHazards] flips whether the hazard layer is on
    the map; afterwards the button's [active] class is set exactly when the
    layer is on the map, and the legend is displayed ([block]) exactly then
    and hidden ([none]) otherwise; the other layers the script put on the
    map stay as they were. *)
Theorem toggleHazards_effect (p : Page) :
  let p' := afterP toggleHazards p in
  let shown := valueP (hasLayer hazardLayer) p in
  let shown' := valueP (hasLayer hazardLayer) p' in
  shown' = negb shown /\
  toggleHazardsActive p' = shown' /\
  hazardLegend p' = (if shown' then DisplayBlock else DisplayNone) /\
  without [hazardLayer] (mapLayers p') = without [hazardLayer] (mapLayers p).
Proof.
  cbv zeta. unfold hasLayer. stepP. cbn [valueP retP fst].
  pose proof (toggleHazards_core p) as E. unfold core in E.
  injection E as _ El _ _ _ _. rewrite El.
  unfold toggleHazards, hasLayer. stepP. cbn [valueP retP fst].
  destruct (existsb (sameLayer hazardLayer) (mapLayers p)) eqn:Ex.
  - rewrite hasLayer_without. cbn [negb]. stepP. cbv beta.
    rewrite removeLayer_after. repeat split.
    unfold without.
    apply filter_all. intros x Hx. apply filter_In in Hx as [_ Hx].
    exact Hx.
  - rewrite hasLayer_added. cbn [negb]. unfold addLayer. stepP.
    rewrite Ex. repeat split.
    unfold without. rewrite filter_app. cbn [filter existsb].
    rewrite sameLayer_refl. cbn [orb negb]. apply app_nil_r.
Qed.

(* --------------------------------------------------------------------- *)
(** ** Responses that arrive late *)
(* --------------------------------------------------------------------- *)

(** X22: the info panel shows the analysis of the response that arrived
    last, not of the location clicked last: when the location A and then
    the location B are clicked and the reverse-geocoding answer for B
    arrives before the one for A, the panel ends up with the analysis of
    A's coordinate and name, while the selected location and the only
    marker are those of B. *)
Theorem late_response_overwrites_panel {R : Runtime} (p : Page)
        (latA lonA latB lonB : float) (nameA nameB : option jsstring) :
  validLatLng latA lonA = true ->
  validLatLng latB lonB = true ->
  let p' := runPageEvents
              [ MapClicked latA lonA; MapClicked latB lonB;
                ReverseGeocoded latB lonB nameB;
                ReverseGeocoded latA lonA nameA ] p in
  (exists locationData,
      infoPanelContent p' = ContentAnalysis locationData /\
      Report.coordinates locationData = (latA, lonA) /\
      Report.name locationData = orElse nameA (lit "Unknown Location")) /\
  currentLocation (world p') = Some (mkLocation latB lonB None) /\
  map position (markers p') = [(latB, lonB)].
Proof.
  intros HA HB. cbv zeta. cbn [runPageEvents runPageEvent].
  set (pA := afterP (handleMapClick latA lonA) p).
  set (pB := afterP (handleMapClick latB lonB) pA).
  set (p1 := afterP (reverseGeocoded latB lonB nameB) pB).
  assert (EB : currentLocation (world pB) = Some (mkLocation latB lonB None) /\
               map position (markers pB) = [(latB, lonB)]).
  { unfold pB, handleMapClick. rewrite HB, afterP_bind, clearMarkers_after.
    cbv beta. rewrite afterP_bind. cbv beta.
    rewrite (@loadLocationInfo_pending R), addMarker_any. split; reflexivity. }
  assert (E1 : currentLocation (world p1) = currentLocation (world pB) /\
               markers p1 = markers pB).
  { unfold p1. rewrite (@reverseGeocoded_after R). cbv zeta.
    cbn [afterP bindP setWorld setInfoPanelContent snd world markers].
    split; [| reflexivity]. apply analyzeLocation_report. }
  rewrite (@reverseGeocoded_after R). cbv zeta.
  cbn [afterP bindP setWorld setInfoPanelContent snd world markers
       infoPanelContent].
  destruct (analyzeLocation_report latA lonA
              (orElse nameA (lit "Unknown Location")) (world p1))
    as (Ec & En & El).
  split; [eexists; split; [reflexivity | split; assumption] |].
  rewrite El. destruct E1 as [-> ->]. exact EB.
Qed.

Lemma late_response_overwrites_panel_witness :
  let p' := runPageEvents
              [ MapClicked manilaLat manilaLon;
                MapClicked 10.3157%float 123.8854%float;
                ReverseGeocoded 10.3157%float 123.8854%float
                                (Some (lit "Cebu City"));
                ReverseGeocoded manilaLat manilaLon (Some (lit "Manila")) ]
              samplePage in
  validLatLng manilaLat manilaLon = true /\
  validLatLng 10.3157%float 123.8854%float = true /\
  (exists locationData,
      infoPanelContent p' = ContentAnalysis locationData /\
      Report.coordinates locationData = (manilaLat, manilaLon) /\
      Report.name locationData = lit "Manila") /\
  currentLocation (world p')
  = Some (mkLocation 10.3157%float 123.8854%float None).
Proof.
  cbv zeta. split; [reflexivity |]. split; [reflexivity |].
  destruct (@late_response_overwrites_panel asciiRuntime samplePage
              manilaLat manilaLon 10.3157%float 123.8854%float
              (Some (lit "Manila")) (Some (lit "Cebu City"))
              eq_refl eq_refl) as (Hp & Hl & _).
  split; [exact Hp | exact Hl].
Defined.

(** X23: after a map click, whatever name the reverse geocoder returns,
    [currentLocation.placeName] stays [null]: the info panel shows the
    analysis under the returned name, while a population question is
    answered, without a random draw, for "this area" with the estimate
    "Unknown". *)
Theorem population_reply_after_click {R : Runtime} (p : Page)
        (lat lon : float) (display_name : option jsstring)
        (userMessage : jsstring) :
  validLatLng lat lon = true ->
  isPopulationQuery (toLowerCase userMessage) = true ->
  let p' := runPageEvents
              [MapClicked lat lon; ReverseGeocoded lat lon display_name] p in
  (exists locationData,
      infoPanelContent p' = ContentAnalysis locationData /\
      Report.name locationData
      = orElse display_name (lit "Unknown Location")) /\
  value (generateAIResponse userMessage) (world p')
  = lit "Based on available data, the estimated population in " ++
    lit "this area" ++ lit " is approximately " ++ lit "Unknown" ++
    lit ". This is an estimate based on regional census data and " ++
    lit "recent demographic trends." /\
  cursor (after (generateAIResponse userMessage) (world p'))
  = cursor (world p').
Proof.
  intros Hv Hq. cbv zeta. cbn [runPageEvents runPageEvent].
  set (p1 := afterP (handleMapClick lat lon) p).
  assert (E1 : currentLocation (world p1) = Some (mkLocation lat lon None)).
  { unfold p1, handleMapClick. rewrite Hv, afterP_bind, clearMarkers_after.
    cbv beta. rewrite afterP_bind. cbv beta.
    rewrite (@loadLocationInfo_pending R), addMarker_any. reflexivity. }
  rewrite (@reverseGeocoded_after R). cbv zeta.
  cbn [afterP bindP setWorld setInfoPanelContent snd world infoPanelContent].
  destruct (analyzeLocation_report lat lon
              (orElse display_name (lit "Unknown Location")) (world p1))
    as (_ & En & El).
  split; [eexists; split; [reflexivity | exact En] |].
  rewrite E1 in El.
  set (w := after (analyzeLocation lat lon
                     (orElse display_name (lit "Unknown Location")))
                  (world p1)) in *.
  unfold generateAIResponse, value, after, bind, noteResponderCall,
    populationReply, getCurrentLocation, ret.
  cbv zeta. rewrite Hq. cbn [fst snd currentLocation]. rewrite El.
  split; reflexivity.
Qed.

Lemma population_reply_after_click_witness :
  let p' := runPageEvents
              [ MapClicked manilaLat manilaLon;
                ReverseGeocoded manilaLat manilaLon
                                (Some (lit "Manila, Philippines")) ]
              samplePage in
  validLatLng manilaLat manilaLon = true /\
  isPopulationQuery (toLowerCase (lit "How many people live here?")) = true /\
  (exists locationData,
      infoPanelContent p' = ContentAnalysis locationData /\
      Report.name locationData = lit "Manila, Philippines" /\
      Report.population locationData = Some (lit "~13.5M")) /\
  includes (value (generateAIResponse (lit "How many people live here?"))
                  (world p'))
           (lit "approximately Unknown") = true.
Proof.
  cbv zeta. split; [reflexivity |]. split; [reflexivity |].
  destruct (@population_reply_after_click asciiRuntime samplePage
              manilaLat manilaLon (Some (lit "Manila, Philippines"))
              (lit "How many people live here?") eq_refl eq_refl)
    as ([locationData [Hc Hn]] & Hr & _).
  split.
  - exists locationData. split; [exact Hc |]. split; [exact Hn |].
    cbn [runPageEvents runPageEvent] in Hc.
    rewrite (@reverseGeocoded_after asciiRuntime) in Hc. cbv zeta in Hc.
    injection Hc as <-. vm_compute. reflexivity.
  - rewrite Hr. vm_compute. reflexivity.
Defined.



(* --------------------------------------------------------------------- *)
(** ** Full-screen chat *)
(* --------------------------------------------------------------------- *)

Lemma openFullScreenChat_after (p : Page) :
  afterP openFullScreenChat p
  = afterP (setWorld (after copyToModal (world p)) >> setAiModalActive true) p.
Proof. unfold openFullScreenChat. stepP. reflexivity. Qed.

Lemma closeFullScreenChat_after (p : Page) :
  afterP closeFullScreenChat p
  = afterP (setAiModalActive false >>
            setWorld (after copyFromModal (world p))) p.
Proof. unfold closeFullScreenChat. stepP. reflexivity. Qed.

(** X25: opening and then closing the full-screen chat leaves the
    side-panel container and the chat history as they were, with the modal
    closed; and when a message is sent from the full-screen input in
    between, the user's message and the reply are, after closing, at the
    end of the side-panel container as well as of the history. *)
Theorem full_screen_round_trip {R : Runtime} (p : Page) :
  (let p' := runPageEvents [FullScreenOpened; FullScreenClosed] p in
   chatPanel (world p') = chatPanel (world p) /\
   chatMessages (world p') = chatMessages (world p) /\
   aiModalActive p' = false) /\
  (falsy (trim (modalChatInput (world p))) = false ->
   let p' := runPageEvents
               [ FullScreenOpened; ChatHappened (SendRequested true);
                 FullScreenClosed ] p in
   exists reply,
     let sent := [ mkEntry (lit "user") (trim (modalChatInput (world p)));
                   mkEntry (lit "ai") reply ] in
     chatMessages (world p') = chatMessages (world p) ++ sent /\
     chatPanel (world p') = chatPanel (world p) ++ map divOf sent /\
     aiModalActive p' = false).
Proof.
  split.
  - cbv zeta. cbn [runPageEvents runPageEvent].
    rewrite closeFullScreenChat_after, openFullScreenChat_after.
    repeat split.
  - intros Hne. cbv zeta. cbn [runPageEvents runPageEvent runEvent].
    rewrite closeFullScreenChat_after, afterP_liftW, openFullScreenChat_after.
    cbn [afterP bindP setWorld setAiModalActive snd world aiModalActive].
    set (w0 := after copyToModal (world p)).
    assert (Hne0 : falsy (trim (if true then modalChatInput w0
                                else chatInput w0)) = false) by exact Hne.
    destruct (@sendChatMessage_after R true w0 Hne0) as [n [Hn ->]].
    eexists. cbv zeta.
    destruct Hn as [-> | ->]; cbn; unfold push; rewrite <- !app_assoc;
      repeat split.
Qed.

Lemma full_screen_round_trip_witness :
  let p := afterP (liftW (setInputValue true (lit " Is it safe here? ")))
                  samplePage in
  let p' := runPageEvents
              [ FullScreenOpened; ChatHappened (SendRequested true);
                FullScreenClosed ] p in
  falsy (trim (modalChatInput (world p))) = false /\
  List.length (chatPanel (world p')) = 2%nat /\
  List.length (chatMessages (world p')) = 2%nat.
Proof.
  cbv zeta. split; [reflexivity |].
  destruct (proj2 (@full_screen_round_trip asciiRuntime
                     (afterP (liftW (setInputValue true
                                       (lit " Is it safe here? ")))
                             samplePage)) eq_refl)
    as [reply (Hm & Hp & _)].
  cbv zeta in Hm, Hp. rewrite Hm, Hp. split; reflexivity.
Defined.

(** X26: what is added to the side-panel container while the full-screen
    chat is open is dropped from it on closing, though it stays in the
    history: when the image-analysis reply is added for the side panel
    between opening and closing, [chatMessages] has gained the reply and
    the side-panel container is as it was on opening; added for the
    full-screen container, the reply is kept. *)
Theorem full_screen_close_overwrites `{Runtime} (p : Page) (isModal : bool) :
  let p' := runPageEvents
              [ FullScreenOpened; ChatHappened (ImageAnalysed isModal);
                FullScreenClosed ] p in
  let reply := mkEntry (lit "ai") imageAnalysis in
  chatMessages (world p') = chatMessages (world p) ++ [reply] /\
  chatPanel (world p')
  = chatPanel (world p) ++ (if isModal then [divOf reply] else []) /\
  modalChatPanel (world p') = chatPanel (world p').
Proof.
  cbv zeta. cbn [runPageEvents runPageEvent runEvent].
  rewrite closeFullScreenChat_after, afterP_liftW, openFullScreenChat_after.
  destruct isModal; cbn; unfold push; rewrite ?app_nil_r; repeat split.
Qed.
